(** * studyBuddy: matching engine and request lifecycle (src/index.js)

    Shallow embedding of the in-memory stores ([users], [sessionRequests]
    and their id counters) and of the Express handlers that read and
    mutate them.  Each handler is a function from the store to an outcome
    and the new store; an early [return res.status(..).send(..)] is an
    [Err], a thrown [TypeError] (caught by [try]/[catch] or by Express)
    is [Err InternalError]. *)

From Stdlib Require Import List String Ascii Bool Arith ZArith Lia.
From Stdlib Require Import Sorted Permutation.
Import ListNotations.

(** ** JavaScript values that reach the handlers from [req.body] *)

(** A form field is either a string or absent ([undefined]). *)
Inductive jsval :=
| JUndefined
| JStr (s : string).

Definition jsval_eqb (a b : jsval) : bool :=
  match a, b with
  | JUndefined, JUndefined => true
  | JStr x, JStr y => String.eqb x y
  | _, _ => false
  end.

(** JS truthiness of a form field: [undefined] and [""] are falsy. *)
Definition truthy (v : jsval) : bool :=
  match v with
  | JUndefined => false
  | JStr s => negb (String.eqb s "")
  end.

(** [Array.prototype.includes] (SameValueZero on strings/undefined). *)
Definition includes (l : list jsval) (x : jsval) : bool :=
  existsb (jsval_eqb x) l.

(** ** Data model *)

Module User.
Record t := mk {
    id : nat;
    username : string;
    password : string;          (* the bcrypt hash *)
    name : string;
    major : string;
    courses : list jsval;
    availability : list jsval
  }.
End User.

Inductive RequestStatus := pending | accepted | declined | cancelled.

Definition status_eqb (a b : RequestStatus) : bool :=
  match a, b with
  | pending, pending | accepted, accepted
  | declined, declined | cancelled, cancelled => true
  | _, _ => false
  end.

Module SessionRequest.
Record t := mk {
    id : nat;
    fromUserId : nat;
    toUserId : nat;
    course : jsval;
    timeSlot : jsval;
    status : RequestStatus;
    createdAt : string
  }.

Definition set_status (st : RequestStatus) (r : t) : t :=
    mk (id r) (fromUserId r) (toUserId r) (course r) (timeSlot r) st (createdAt r).
End SessionRequest.

(** ** Matching engine: GET /dashboard, suggested matches (lines 104-122) *)

(** [(user.courses || []).filter(course => (otherUser.courses || []).includes(course))] *)
Definition mutualCourses (user otherUser : User.t) : list jsval :=
  filter (fun course => includes (User.courses otherUser) course) (User.courses user).

(** [(user.availability || []).filter(slot => (otherUser.availability || []).includes(slot))] *)
Definition overlappingAvailability (user otherUser : User.t) : list jsval :=
  filter (fun slot => includes (User.availability otherUser) slot) (User.availability user).

Module Match.
Record t := mk {
    id : nat;
    name : string;
    major : string;
    mutualCourses : list jsval;
    overlappingAvailability : list jsval;
    score : nat
  }.
End Match.

(** The [users.map(otherUser => ...)] callback: [None] stands for [null]. *)
Definition match_of (user otherUser : User.t) : option Match.t :=
  if Nat.eqb (User.id otherUser) (User.id user) then None
  else
    let mc := mutualCourses user otherUser in
    let oa := overlappingAvailability user otherUser in
    if (0 <? List.length mc) && (0 <? List.length oa) then
      Some (Match.mk (User.id otherUser) (User.name otherUser) (User.major otherUser)
              mc oa (List.length mc + List.length oa))
    else None.

(** [.filter(Boolean)] after the [map]. *)
Fixpoint filter_some {A} (l : list (option A)) : list A :=
  match l with
  | [] => []
  | Some x :: l' => x :: filter_some l'
  | None :: l' => filter_some l'
  end.

(** [Array.prototype.sort(cmp)]: ECMAScript 2019 and later require the sort
    to be stable, so the result is the unique permutation that is ordered by
    [cmp] and keeps [cmp]-equal elements in input order.  A stable insertion
    sort computes it: [x] is placed after [y] only when [cmp x y > 0]. *)
Fixpoint js_insert {A} (cmp : A -> A -> Z) (x : A) (l : list A) : list A :=
  match l with
  | [] => [x]
  | y :: l' => if (0 <? cmp x y)%Z then y :: js_insert cmp x l' else x :: y :: l'
  end.

Fixpoint js_sort {A} (cmp : A -> A -> Z) (l : list A) : list A :=
  match l with
  | [] => []
  | x :: l' => js_insert cmp x (js_sort cmp l')
  end.

(** [(a, b) => b.score - a.score] *)
Definition by_score_desc (a b : Match.t) : Z :=
  (Z.of_nat (Match.score b) - Z.of_nat (Match.score a))%Z.

Definition suggestedMatches (user : User.t) (users : list User.t) : list Match.t :=
  js_sort by_score_desc (filter_some (map (match_of user) users)).

(** ** The stores (lines 9-14) and the acting user *)

Record Store := mkStore {
  users : list User.t;
  nextUserId : nat;
  sessionRequests : list SessionRequest.t;
  nextRequestId : nat
}.

Definition emptyStore : Store := mkStore [] 1 [] 1.

Inductive error :=
| InvalidEmailDomain | PasswordTooShort | PasswordMismatch | DuplicateUser
| MissingRequiredField | RecipientNotFound | SelfRequest | CourseNotShared
| SlotNotMutuallyAvailable | RequestNotFound | NotAuthorized | InvalidState
| InternalError.

Inductive outcome := Ok | Err (e : error).

Definition with_users (s : Store) (us : list User.t) : Store :=
  mkStore us (nextUserId s) (sessionRequests s) (nextRequestId s).

Definition with_requests (s : Store) (rs : list SessionRequest.t) : Store :=
  mkStore (users s) (nextUserId s) rs (nextRequestId s).

(** [getCurrentUser]: [users.find(u => u.username === req.session.user?.username)];
    [sess] is the username kept in the session. *)
Definition getCurrentUser (s : Store) (sess : string) : option User.t :=
  find (fun u => String.eqb (User.username u) sess) (users s).

(** In-place mutation of the object [find] returned: the first match. *)
Fixpoint update_first {A} (p : A -> bool) (f : A -> A) (l : list A) : list A :=
  match l with
  | [] => []
  | x :: l' => if p x then f x :: l' else x :: update_first p f l'
  end.

Definition update_current (s : Store) (sess : string) (f : User.t -> User.t) : Store :=
  with_users s (update_first (fun u => String.eqb (User.username u) sess) f (users s)).

(** ** POST /register (lines 48-76) *)

(** [s.endsWith(suffix)] *)
Definition ends_with (suffix s : string) : bool :=
  (String.length suffix <=? String.length s)
  && String.eqb (substring (String.length s - String.length suffix) (String.length suffix) s) suffix.

Section Register.
(** [bcrypt.hash(password, 10)]; [None] when it rejects. *)
Variable hash : string -> option string.

Definition register (username password confirmPassword firstName lastName major : jsval)
      (s : Store) : outcome * Store :=
    match username with
    | JUndefined => (Err InternalError, s)                   (* username.endsWith throws *)
    | JStr un =>
      if negb (ends_with "@clemson.edu" un) then (Err InvalidEmailDomain, s) else
      match password with
      | JUndefined => (Err InternalError, s)                 (* password.length throws *)
      | JStr pw =>
        if String.length pw <? 8 then (Err PasswordTooShort, s) else
        if negb (jsval_eqb password confirmPassword) then (Err PasswordMismatch, s) else
        if existsb (fun u => String.eqb (User.username u) un) (users s)
        then (Err DuplicateUser, s) else
        match firstName, lastName, major with
        | JStr fn, JStr ln, JStr mj =>
          if negb (truthy firstName) || negb (truthy lastName) || negb (truthy major)
          then (Err MissingRequiredField, s) else
          match hash pw with
          | None => (Err InternalError, s)
          | Some h =>
            (Ok, mkStore (users s ++ [User.mk (nextUserId s) un h (fn ++ " " ++ ln) mj [] []])
                         (S (nextUserId s)) (sessionRequests s) (nextRequestId s))
          end
        | _, _, _ => (Err MissingRequiredField, s)
        end
      end
    end.
End Register.

(** ** POST /profile (lines 133-143) *)

Definition updateProfile (sess : string) (name major : jsval) (s : Store) : outcome * Store :=
  match name, major with
  | JStr n, JStr m =>
    if truthy name && truthy major then
      match getCurrentUser s sess with
      | None => (Err InternalError, s)
      | Some _ =>
        (Ok, update_current s sess (fun u =>
               User.mk (User.id u) (User.username u) (User.password u) n m
                       (User.courses u) (User.availability u)))
      end
    else (Err MissingRequiredField, s)
  | _, _ => (Err MissingRequiredField, s)
  end.

(** ** POST /courses/add and /courses/remove (lines 151-165); [course] is a
    string form field or absent. *)

Definition with_courses (cs : list jsval) (u : User.t) : User.t :=
  User.mk (User.id u) (User.username u) (User.password u) (User.name u)
          (User.major u) cs (User.availability u).

Definition coursesAdd (sess : string) (course : jsval) (s : Store) : outcome * Store :=
  if negb (truthy course) then (Ok, s) else
  match getCurrentUser s sess with
  | None => (Err InternalError, s)
  | Some user =>
    if includes (User.courses user) course then (Ok, s)
    else (Ok, update_current s sess (fun u => with_courses (User.courses u ++ [course]) u))
  end.

Definition coursesRemove (sess : string) (course : jsval) (s : Store) : outcome * Store :=
  match getCurrentUser s sess with
  | None => (Err InternalError, s)
  | Some _ =>
    (Ok, update_current s sess (fun u =>
           with_courses (filter (fun c => negb (jsval_eqb c course)) (User.courses u)) u))
  end.

(** ** POST /availability (lines 226-231) *)

(** A multi-select form field: a single value or an array of values. *)
Inductive formval :=
| FOne (v : jsval)
| FMany (vs : list jsval).

(** [Array.isArray(availability) ? availability : [availability]] *)
Definition normalize (a : formval) : list jsval :=
  match a with
  | FMany vs => vs
  | FOne v => [v]
  end.

Definition setAvailability (sess : string) (availability : formval) (s : Store) : outcome * Store :=
  match getCurrentUser s sess with
  | None => (Err InternalError, s)
  | Some _ =>
    (Ok, update_current s sess (fun u =>
           User.mk (User.id u) (User.username u) (User.password u) (User.name u)
                   (User.major u) (User.courses u) (normalize availability)))
  end.

(** ** POST /send-request (lines 234-268); [recipientId] is the result of
    [parseInt(recipientId, 10)], [None] for [NaN]; [now] is
    [new Date().toISOString()]. *)

(** [users.find(u => u.id === parseInt(recipientId, 10))] *)
Definition findUserById (s : Store) (recipientId : option nat) : option User.t :=
  find (fun u => match recipientId with
                 | Some n => Nat.eqb (User.id u) n
                 | None => false
                 end) (users s).

Definition sendRequest (sess : string) (recipientId : option nat) (course timeSlot : jsval)
    (now : string) (s : Store) : outcome * Store :=
  let fromUser := getCurrentUser s sess in
  let toUser := findUserById s recipientId in
  match toUser with
  | None => (Err RecipientNotFound, s)
  | Some toUser =>
    match fromUser with
    | None => (Err InternalError, s)                         (* fromUser.id throws *)
    | Some fromUser =>
      if Nat.eqb (User.id toUser) (User.id fromUser) then (Err SelfRequest, s) else
      if negb (includes (User.courses fromUser) course)
         || negb (includes (User.courses toUser) course)
      then (Err CourseNotShared, s) else
      let overlap := includes (User.availability fromUser) timeSlot
                     && includes (User.availability toUser) timeSlot in
      if negb overlap then (Err SlotNotMutuallyAvailable, s) else
      let newReq := SessionRequest.mk (nextRequestId s) (User.id fromUser) (User.id toUser)
                      course timeSlot pending now in
      (Ok, mkStore (users s) (nextUserId s) (sessionRequests s ++ [newReq])
                   (S (nextRequestId s)))
    end
  end.

(** ** POST /requests/:id/accept, /requests/:id/decline (lines 271-292) and
    POST /sessions/:id/cancel (lines 303-314); [reqId] is
    [parseInt(req.params.id, 10)], [None] for [NaN]. *)

Definition is_req (reqId : option nat) (r : SessionRequest.t) : bool :=
  match reqId with
  | Some n => Nat.eqb (SessionRequest.id r) n
  | None => false
  end.

(** [sessionRequests.find(r => r.id === reqId)] *)
Definition find_request (s : Store) (reqId : option nat) : option SessionRequest.t :=
  find (is_req reqId) (sessionRequests s).

(** [found.status = st] on the object [find] returned. *)
Definition set_found_status (s : Store) (reqId : option nat) (st : RequestStatus) : Store :=
  with_requests s (update_first (is_req reqId) (SessionRequest.set_status st) (sessionRequests s)).

Definition accept (sess : string) (reqId : option nat) (s : Store) : outcome * Store :=
  let user := getCurrentUser s sess in
  match find_request s reqId with
  | None => (Err RequestNotFound, s)
  | Some found =>
    match user with
    | None => (Err InternalError, s)
    | Some user =>
      if negb (Nat.eqb (SessionRequest.toUserId found) (User.id user)) then (Err NotAuthorized, s) else
      if negb (status_eqb (SessionRequest.status found) pending) then (Err InvalidState, s) else
      (Ok, set_found_status s reqId accepted)
    end
  end.

Definition decline (sess : string) (reqId : option nat) (s : Store) : outcome * Store :=
  let user := getCurrentUser s sess in
  match find_request s reqId with
  | None => (Err RequestNotFound, s)
  | Some found =>
    match user with
    | None => (Err InternalError, s)
    | Some user =>
      if negb (Nat.eqb (SessionRequest.toUserId found) (User.id user)) then (Err NotAuthorized, s) else
      if negb (status_eqb (SessionRequest.status found) pending) then (Err InvalidState, s) else
      (Ok, set_found_status s reqId declined)
    end
  end.

Definition cancel (sess : string) (reqId : option nat) (s : Store) : outcome * Store :=
  let user := getCurrentUser s sess in
  match find_request s reqId with
  | None => (Err RequestNotFound, s)
  | Some found =>
    match user with
    | None => (Err InternalError, s)
    | Some user =>
      let isParticipant := Nat.eqb (SessionRequest.fromUserId found) (User.id user)
                           || Nat.eqb (SessionRequest.toUserId found) (User.id user) in
      if negb isParticipant then (Err NotAuthorized, s) else
      if negb (status_eqb (SessionRequest.status found) accepted) then (Err InvalidState, s) else
      (Ok, set_found_status s reqId cancelled)
    end
  end.

(** ** Read views: GET /requests.json (lines 317-322), GET /users.json (lines 331-334) *)

Record RequestsView := mkRequestsView {
  incoming : list SessionRequest.t;
  outgoing : list SessionRequest.t
}.

Definition requestsJson (user : User.t) (s : Store) : RequestsView :=
  mkRequestsView
    (filter (fun r => Nat.eqb (SessionRequest.toUserId r) (User.id user)) (sessionRequests s))
    (filter (fun r => Nat.eqb (SessionRequest.fromUserId r) (User.id user)) (sessionRequests s)).

Module MinimalUser.
Record t := mk {
    id : nat;
    username : string;
    name : string;
    major : string
  }.
End MinimalUser.

Definition usersJson (s : Store) : list MinimalUser.t :=
  map (fun u => MinimalUser.mk (User.id u) (User.username u) (User.name u) (User.major u)) (users s).

(** ** POST /search (lines 173-218) *)

(** [String.prototype.toLowerCase] on the ASCII letters. *)
Definition lower_char (c : ascii) : ascii :=
  let n := nat_of_ascii c in
  if (65 <=? n) && (n <=? 90) then ascii_of_nat (n + 32) else c.

Fixpoint toLowerCase (s : string) : string :=
  match s with
  | EmptyString => EmptyString
  | String c s' => String (lower_char c) (toLowerCase s')
  end.

(** White space and line terminators removed by [String.prototype.trim]
    (tab, LF, VT, FF, CR, space). *)
Definition is_js_space (c : ascii) : bool :=
  let n := nat_of_ascii c in
  ((9 <=? n) && (n <=? 13)) || Nat.eqb n 32.

Fixpoint drop_space (l : list ascii) : list ascii :=
  match l with
  | [] => []
  | c :: l' => if is_js_space c then drop_space l' else l
  end.

Definition trim (s : string) : string :=
  string_of_list_ascii (rev (drop_space (rev (drop_space (list_ascii_of_string s))))).

Module SearchResult.
Record t := mk {
    id : nat;
    username : string;
    name : string;
    major : string;
    sharedCourses : list jsval;
    overlapAvailability : list jsval
  }.
End SearchResult.

(** [selectedTimes]: an array as is, a truthy single value wrapped, else [[]]. *)
Definition selectedTimesOf (availabilityFilter : formval) : list jsval :=
  match availabilityFilter with
  | FMany vs => vs
  | FOne v => if truthy v then [v] else []
  end.

(** Lines 204-208: the major filter stage. *)
Definition majorStage (majorFilter : jsval) (results : list SearchResult.t) : list SearchResult.t :=
  match majorFilter with
  | JStr m =>
    if truthy majorFilter && (0 <? String.length (trim m)) then
      let mf := toLowerCase (trim m) in
      filter (fun r => String.eqb (toLowerCase (SearchResult.major r)) mf) results
    else results
  | JUndefined => results
  end.

(** Lines 210-213: the availability filter stage. *)
Definition availabilityStage (selectedTimes : list jsval) (results : list SearchResult.t)
    : list SearchResult.t :=
  if 0 <? List.length selectedTimes then
    filter (fun r => existsb (fun t => includes selectedTimes t) (SearchResult.overlapAvailability r))
           results
  else results.

Definition search (currentUser : User.t) (users : list User.t)
    (course majorFilter : jsval) (availabilityFilter : formval) : list SearchResult.t :=
  let selectedTimes := selectedTimesOf availabilityFilter in
  let basePool := filter (fun u => negb (String.eqb (User.username u) (User.username currentUser))) users in
  let courseFiltered :=
    if truthy course then filter (fun u => includes (User.courses u) course) basePool else basePool in
  let results :=
    map (fun u => SearchResult.mk (User.id u) (User.username u) (User.name u) (User.major u)
                    (filter (fun c => includes (User.courses u) c) (User.courses currentUser))
                    (filter (fun slot => includes (User.availability u) slot)
                            (User.availability currentUser)))
        courseFiltered in
  availabilityStage selectedTimes (majorStage majorFilter results).

(** ** Reachable stores: any sequence of handler calls from the empty store *)

Inductive step : Store -> Store -> Prop :=
| step_register hash un pw cpw fn ln mj s o s' :
    register hash un pw cpw fn ln mj s = (o, s') -> step s s'
| step_profile sess n m s o s' : updateProfile sess n m s = (o, s') -> step s s'
| step_coursesAdd sess c s o s' : coursesAdd sess c s = (o, s') -> step s s'
| step_coursesRemove sess c s o s' : coursesRemove sess c s = (o, s') -> step s s'
| step_availability sess a s o s' : setAvailability sess a s = (o, s') -> step s s'
| step_sendRequest sess rid c t now s o s' : sendRequest sess rid c t now s = (o, s') -> step s s'
| step_accept sess rid s o s' : accept sess rid s = (o, s') -> step s s'
| step_decline sess rid s o s' : decline sess rid s = (o, s') -> step s s'
| step_cancel sess rid s o s' : cancel sess rid s = (o, s') -> step s s'.

Inductive steps : Store -> Store -> Prop :=
| steps_refl s : steps s s
| steps_cons s1 s2 s3 : step s1 s2 -> steps s2 s3 -> steps s1 s3.

Definition reachable (s : Store) : Prop := steps emptyStore s.

(** Status changes the request state machine admits (reflexive-transitive):
    anything from [pending]; [accepted] only to [cancelled]; [declined] and
    [cancelled] to nothing else. *)
Definition allowed (before after : RequestStatus) : bool :=
  match before, after with
  | pending, _ => true
  | accepted, (accepted | cancelled) => true
  | declined, declined => true
  | cancelled, cancelled => true
  | _, _ => false
  end.

(** Every request at index [i] of [l] is still at index [i] of [l'], with an
    admitted status change. *)
Definition ledger_le (l l' : list SessionRequest.t) : Prop :=
  forall i r, nth_error l i = Some r ->
  exists r', nth_error l' i = Some r' /\
             allowed (SessionRequest.status r) (SessionRequest.status r') = true.

(** ** POST /login (lines 82-96) *)

Inductive loginOutcome :=
| LoggedIn (u : User.t)          (* [req.session.user = user] *)
| InvalidCredentials             (* 400 'Invalid credentials.' *)
| LoginError.                    (* 500 'Error logging in.' *)

Section Login.
(** [bcrypt.compare(password, hash)]; [None] when it rejects. *)
Variable compare : jsval -> string -> option bool.

Definition login (username password : jsval) (s : Store) : loginOutcome :=
  match find (fun u => jsval_eqb (JStr (User.username u)) username) (users s) with
  | None => InvalidCredentials
  | Some user =>
    match compare password (User.password user) with
    | None => LoginError
    | Some true => LoggedIn user
    | Some false => InvalidCredentials
    end
  end.
End Login.

(** ** GET /dashboard (lines 98-125) and GET /sessions (lines 295-300) *)

Record DashboardView := mkDashboardView {
  incomingRequests : list SessionRequest.t;
  outgoingRequests : list SessionRequest.t;
  upcomingSessions : list SessionRequest.t;
  dashboardMatches : list Match.t
}.

Definition involves (user : User.t) (r : SessionRequest.t) : bool :=
  Nat.eqb (SessionRequest.fromUserId r) (User.id user)
  || Nat.eqb (SessionRequest.toUserId r) (User.id user).

Definition dashboardView (user : User.t) (s : Store) : DashboardView :=
  mkDashboardView
    (filter (fun r => Nat.eqb (SessionRequest.toUserId r) (User.id user)
                      && status_eqb (SessionRequest.status r) pending) (sessionRequests s))
    (filter (fun r => Nat.eqb (SessionRequest.fromUserId r) (User.id user)) (sessionRequests s))
    (filter (fun r => involves user r && status_eqb (SessionRequest.status r) accepted)
            (sessionRequests s))
    (suggestedMatches user (users s)).

(** [None]: no current user, [user.id] throws. *)
Definition dashboard (sess : string) (s : Store) : option DashboardView :=
  match getCurrentUser s sess with
  | None => None
  | Some user => Some (dashboardView user s)
  end.

Record SessionsView := mkSessionsView {
  confirmedSessions : list SessionRequest.t;
  pendingSessions : list SessionRequest.t
}.

Definition sessionsView (user : User.t) (s : Store) : SessionsView :=
  mkSessionsView
    (filter (fun r => involves user r && status_eqb (SessionRequest.status r) accepted)
            (sessionRequests s))
    (filter (fun r => involves user r && status_eqb (SessionRequest.status r) pending)
            (sessionRequests s)).

(** ** Invariants of the stores kept by the handlers *)

Record store_wf (s : Store) : Prop := {
  wf_usernames : NoDup (map User.username (users s));
  wf_domain : forall u, In u (users s) -> ends_with "@clemson.edu" (User.username u) = true;
  wf_user_ids : NoDup (map User.id (users s));
  wf_user_ids_lt : forall u, In u (users s) -> User.id u < nextUserId s;
  wf_request_ids : NoDup (map SessionRequest.id (sessionRequests s));
  wf_request_ids_lt : forall r, In r (sessionRequests s) -> SessionRequest.id r < nextRequestId s;
  wf_not_self : forall r, In r (sessionRequests s) ->
    SessionRequest.fromUserId r <> SessionRequest.toUserId r;
  wf_from_exists : forall r, In r (sessionRequests s) ->
    In (SessionRequest.fromUserId r) (map User.id (users s));
  wf_to_exists : forall r, In r (sessionRequests s) ->
    In (SessionRequest.toUserId r) (map User.id (users s))
}.

(** ** Sample data: the users of the end-to-end scenarios *)

Definition MATH1 : jsval := JStr "MATH1".
Definition ENG1 : jsval := JStr "ENG1".
Definition T1 : jsval := JStr "T1".
Definition T2 : jsval := JStr "T2".

Definition userA : User.t :=
  User.mk 1 "a@clemson.edu" "hashA" "Ann Lee" "CS" [MATH1; ENG1] [T1; T2].
Definition userB : User.t :=
  User.mk 2 "b@clemson.edu" "hashB" "Bo Kim" "ECE" [MATH1] [T1].
Definition userC : User.t :=
  User.mk 3 "c@clemson.edu" "hashC" "Cy Diaz" "CS" [ENG1] [T2].

Definition sampleStore : Store := mkStore [userA; userB; userC] 4 [] 1.

Definition now0 : string := "2026-01-01T10:00:00.000Z"%string.

(** B asks A for MATH1 at T1; A accepts; A cancels. *)
Definition scenario1 : Store := snd (sendRequest "b@clemson.edu" (Some 1) MATH1 T1 now0 sampleStore).
Definition scenario2 : Store := snd (accept "a@clemson.edu" (Some 1) scenario1).
Definition scenario3 : Store := snd (cancel "a@clemson.edu" (Some 1) scenario2).

Definition request1 : SessionRequest.t := SessionRequest.mk 1 2 1 MATH1 T1 pending now0.

(** A store built by the handlers from the empty store. *)
Definition bcryptStub (pw : string) : option string := Some ("$2b$10$" ++ pw)%string.

Definition registered : Store :=
  snd (register bcryptStub (JStr "b@clemson.edu") (JStr "password123") (JStr "password123")
         (JStr "Bo") (JStr "Kim") (JStr "ECE")
    (snd (register bcryptStub (JStr "a@clemson.edu") (JStr "password123") (JStr "password123")
            (JStr "Ann") (JStr "Lee") (JStr "CS") emptyStore))).

Definition coursesStore : Store :=
  snd (coursesAdd "b@clemson.edu" MATH1
    (snd (coursesAdd "a@clemson.edu" ENG1
      (snd (coursesAdd "a@clemson.edu" MATH1
        (snd (coursesAdd "a@clemson.edu" MATH1 registered))))))).

(** [bcrypt.compare] against [bcryptStub]'s hashes; it throws on [undefined]. *)
Definition bcryptCompareStub (pw : jsval) (h : string) : option bool :=
  match pw with
  | JUndefined => None
  | JStr p => Some (String.eqb h ("$2b$10$" ++ p))
  end.

Definition registeredA : Store :=
  snd (register bcryptStub (JStr "a@clemson.edu") (JStr "password123") (JStr "password123")
         (JStr "Ann") (JStr "Lee") (JStr "CS") emptyStore).

(** The request lifecycle run on the registered users: availability set,
    a request from b to a, its acceptance by a and its cancellation by a. *)
Definition availStore : Store :=
  snd (setAvailability "b@clemson.edu" (FOne T1)
    (snd (setAvailability "a@clemson.edu" (FMany [T1; T2]) coursesStore))).

Definition requestedStore : Store :=
  snd (sendRequest "b@clemson.edu" (Some 1) MATH1 T1 now0 availStore).

Definition acceptedStore : Store := snd (accept "a@clemson.edu" (Some 1) requestedStore).

Definition cancelledStore : Store := snd (cancel "a@clemson.edu" (Some 1) acceptedStore).


(** * Proofs *)

Lemma jsval_eqb_spec a b : jsval_eqb a b = true <-> a = b.
Proof.
  destruct a as [|x], b as [|y]; simpl; split; intro H; try congruence.
  - apply String.eqb_eq in H; subst; reflexivity.
  - inversion H; subst; apply String.eqb_refl.
Qed.

Lemma status_eqb_spec a b : status_eqb a b = true <-> a = b.
Proof. destruct a, b; simpl; split; congruence. Qed.

(** ** Sorting by score *)

Definition desc (a b : Match.t) : Prop := Match.score b <= Match.score a.

Lemma by_score_desc_pos a b :
  (0 <? by_score_desc a b)%Z = (Match.score a <? Match.score b).
Proof.
  unfold by_score_desc.
  destruct (Match.score a <? Match.score b) eqn:E.
  - apply Nat.ltb_lt in E. apply Z.ltb_lt. lia.
  - apply Nat.ltb_ge in E. apply Z.ltb_ge. lia.
Qed.

Lemma js_insert_perm {A} (cmp : A -> A -> Z) x l :
  Permutation (js_insert cmp x l) (x :: l).
Proof.
  induction l as [|y l IH]; simpl; [reflexivity|].
  destruct (0 <? cmp x y)%Z; [|reflexivity].
  rewrite IH. apply perm_swap.
Qed.

Lemma js_sort_perm {A} (cmp : A -> A -> Z) l : Permutation (js_sort cmp l) l.
Proof.
  induction l as [|x l IH]; simpl; [reflexivity|].
  rewrite js_insert_perm. now apply perm_skip.
Qed.

Lemma js_insert_sorted x l :
  Sorted desc l -> Sorted desc (js_insert by_score_desc x l).
Proof.
  induction l as [|y l IH]; simpl; intro Hs.
  - repeat constructor.
  - rewrite by_score_desc_pos.
    destruct (Match.score x <? Match.score y) eqn:E.
    + apply Nat.ltb_lt in E.
      apply Sorted_inv in Hs as [Hl Hh].
      constructor; [now apply IH|].
      destruct l as [|z l]; simpl.
      * constructor. unfold desc. lia.
      * rewrite by_score_desc_pos.
        inversion Hh; subst.
        destruct (Match.score x <? Match.score z) eqn:E'; constructor; unfold desc in *.
        -- assumption.
        -- lia.
    + apply Nat.ltb_ge in E. constructor; [exact Hs|]. constructor. exact E.
Qed.

Lemma js_sort_sorted l : Sorted desc (js_sort by_score_desc l).
Proof.
  induction l; simpl; [constructor|]. now apply js_insert_sorted.
Qed.

Definition with_score (k : nat) (m : Match.t) : bool := Nat.eqb (Match.score m) k.

Lemma js_insert_stable k x l :
  filter (with_score k) (js_insert by_score_desc x l)
  = if with_score k x then x :: filter (with_score k) l else filter (with_score k) l.
Proof.
  induction l as [|y l IH]; simpl.
  - destruct (with_score k x); reflexivity.
  - rewrite by_score_desc_pos.
    destruct (Match.score x <? Match.score y) eqn:E.
    + apply Nat.ltb_lt in E. simpl. rewrite IH. unfold with_score.
      destruct (Nat.eqb (Match.score x) k) eqn:Ex, (Nat.eqb (Match.score y) k) eqn:Ey;
        try reflexivity.
      apply Nat.eqb_eq in Ex, Ey. lia.
    + simpl. destruct (with_score k x); reflexivity.
Qed.

Lemma js_sort_stable k l :
  filter (with_score k) (js_sort by_score_desc l) = filter (with_score k) l.
Proof.
  induction l as [|x l IH]; simpl; [reflexivity|].
  rewrite js_insert_stable, IH. reflexivity.
Qed.

Lemma in_filter_some {A B} (f : A -> option B) l m :
  In m (filter_some (map f l)) <-> exists c, In c l /\ f c = Some m.
Proof.
  induction l as [|c l IH]; simpl.
  - split; [tauto|]. intros (c & [] & _).
  - destruct (f c) as [m'|] eqn:Ef; simpl; rewrite IH; split.
    + intros [<-|(c' & Hc' & Hf)]; eauto.
    + intros (c' & [<-|Hc'] & Hf); [left; congruence|eauto].
    + intros (c' & Hc' & Hf); eauto.
    + intros (c' & [<-|Hc'] & Hf); [congruence|eauto].
Qed.

Lemma match_of_some user c m :
  match_of user c = Some m <->
  User.id c <> User.id user /\ mutualCourses user c <> [] /\
  overlappingAvailability user c <> [] /\
  m = Match.mk (User.id c) (User.name c) (User.major c)
        (mutualCourses user c) (overlappingAvailability user c)
        (List.length (mutualCourses user c) + List.length (overlappingAvailability user c)).
Proof.
  unfold match_of.
  destruct (Nat.eqb (User.id c) (User.id user)) eqn:E.
  - apply Nat.eqb_eq in E. split; [discriminate|]. intros (H & _). contradiction.
  - apply Nat.eqb_neq in E.
    destruct (mutualCourses user c) as [|a mc], (overlappingAvailability user c) as [|b oa];
      simpl; split; try discriminate; try (intros (_ & H & H' & _); congruence).
    + intros H; inversion H; subst. repeat split; congruence.
    + intros (_ & _ & _ & ->). reflexivity.
Qed.

(** ** C1 *)

(** C1: [suggestedMatches user users] never contains [user] (by id); it
    contains exactly the candidates, other than [user], whose mutual courses
    and overlapping availability are both non-empty, each with
    [score = |mutualCourses| + |overlappingAvailability|]; it is a
    permutation of those candidates' matches, sorted by descending score,
    and the matches of any one score appear in candidate enumeration order
    (stable ties). *)
Theorem suggestedMatches_spec (user : User.t) (users : list User.t) :
  let candidates := filter_some (map (match_of user) users) in
  let result := suggestedMatches user users in
  (forall m, In m result -> Match.id m <> User.id user) /\
  (forall m, In m result <->
     exists c, In c users /\ User.id c <> User.id user /\
       mutualCourses user c <> [] /\ overlappingAvailability user c <> [] /\
       m = Match.mk (User.id c) (User.name c) (User.major c)
             (mutualCourses user c) (overlappingAvailability user c)
             (List.length (mutualCourses user c)
              + List.length (overlappingAvailability user c))) /\
  Permutation result candidates /\
  Sorted (fun a b => Match.score b <= Match.score a) result /\
  (forall k, filter (fun m => Nat.eqb (Match.score m) k) result
             = filter (fun m => Nat.eqb (Match.score m) k) candidates).
Proof.
  intros candidates result.
  assert (Hin : forall m, In m result <-> In m candidates).
  { intro m. split; apply Permutation_in;
      [|symmetry]; apply js_sort_perm. }
  assert (Hchar : forall m, In m result <->
     exists c, In c users /\ User.id c <> User.id user /\
       mutualCourses user c <> [] /\ overlappingAvailability user c <> [] /\
       m = Match.mk (User.id c) (User.name c) (User.major c)
             (mutualCourses user c) (overlappingAvailability user c)
             (List.length (mutualCourses user c)
              + List.length (overlappingAvailability user c))).
  { intro m. rewrite Hin. unfold candidates. rewrite in_filter_some.
    split.
    - intros (c & Hc & Hm). apply match_of_some in Hm. eauto.
    - intros (c & Hc & H). exists c. split; [exact Hc|]. now apply match_of_some. }
  repeat split.
  - intros m Hm. apply Hchar in Hm as (c & _ & Hne & _ & _ & ->). exact Hne.
  - apply Hchar.
  - apply Hchar.
  - apply js_sort_perm.
  - apply js_sort_sorted.
  - intro k. apply (js_sort_stable k).
Qed.

(** ** The request ledger across handler calls *)

Lemma allowed_refl st : allowed st st = true.
Proof. destruct st; reflexivity. Qed.

Lemma allowed_trans a b c :
  allowed a b = true -> allowed b c = true -> allowed a c = true.
Proof. destruct a, b, c; simpl; congruence. Qed.

Lemma ledger_le_refl l : ledger_le l l.
Proof. intros i r H. exists r. split; [exact H|apply allowed_refl]. Qed.

Lemma ledger_le_trans l1 l2 l3 : ledger_le l1 l2 -> ledger_le l2 l3 -> ledger_le l1 l3.
Proof.
  intros H12 H23 i r H.
  destruct (H12 i r H) as (r2 & H2 & A2).
  destruct (H23 i r2 H2) as (r3 & H3 & A3).
  exists r3. split; [exact H3|]. eapply allowed_trans; eassumption.
Qed.

Lemma ledger_le_app l x : ledger_le l (l ++ x).
Proof.
  intros i r H. exists r. split; [|apply allowed_refl].
  rewrite nth_error_app1; [exact H|]. apply nth_error_Some. congruence.
Qed.

Lemma update_first_length {A} (p : A -> bool) f l :
  List.length (update_first p f l) = List.length l.
Proof. induction l as [|x l IH]; simpl; [|destruct (p x); simpl; rewrite ?IH]; reflexivity. Qed.

Lemma ledger_le_update_first p st l x :
  find p l = Some x -> allowed (SessionRequest.status x) st = true ->
  ledger_le l (update_first p (SessionRequest.set_status st) l).
Proof.
  intros Hf Ha. revert Hf.
  induction l as [|y l IH]; simpl; [discriminate|].
  intros Hf i r Hi. destruct (p y) eqn:Ey.
  - inversion Hf; subst. destruct i as [|i]; simpl in *.
    + inversion Hi; subst. eexists; split; [reflexivity|exact Ha].
    + exists r. split; [exact Hi|apply allowed_refl].
  - destruct i as [|i]; simpl in *.
    + inversion Hi; subst. exists r. split; [reflexivity|apply allowed_refl].
    + exact (IH Hf i r Hi).
Qed.

Lemma set_found_status_ledger s rid st x :
  find_request s rid = Some x -> allowed (SessionRequest.status x) st = true ->
  ledger_le (sessionRequests s) (sessionRequests (set_found_status s rid st)) /\
  (forall i r, List.length (sessionRequests s) <= i ->
     nth_error (sessionRequests (set_found_status s rid st)) i = Some r ->
     SessionRequest.status r = pending).
Proof.
  intros Hf Ha. split.
  - eapply ledger_le_update_first; eassumption.
  - intros i r Hl Hi. simpl in Hi.
    rewrite <- (update_first_length (is_req rid) (SessionRequest.set_status st)) in Hl.
    apply nth_error_None in Hl. congruence.
Qed.

Lemma negb_status_false a b : negb (status_eqb a b) = false -> a = b.
Proof. intro H. apply negb_false_iff, status_eqb_spec in H. exact H. Qed.

Ltac split_matches H :=
  repeat match type of H with
  | context [match ?x with _ => _ end] => let E := fresh "E" in destruct x eqn:E
  end.

(** What one handler call does to the ledger: existing entries keep their
    index and change status only as [allowed] admits; entries past the old
    end are new requests, [pending]. *)
Lemma step_ledger s s' :
  step s s' ->
  ledger_le (sessionRequests s) (sessionRequests s') /\
  (forall i r, List.length (sessionRequests s) <= i ->
     nth_error (sessionRequests s') i = Some r -> SessionRequest.status r = pending).
Proof.
  assert (Hsame : forall l i (r : SessionRequest.t), List.length l <= i ->
            nth_error l i = Some r -> SessionRequest.status r = pending).
  { intros l i r Hl Hi. apply nth_error_None in Hl. congruence. }
  intros Hs; destruct Hs as
    [hash un pw cpw fn ln mj s o s' H | sess n m s o s' H | sess c s o s' H
    | sess c s o s' H | sess a s o s' H | sess rid c t now s o s' H
    | sess rid s o s' H | sess rid s o s' H | sess rid s o s' H].
  - unfold register in H. split_matches H; inversion H; subst;
      split; try apply ledger_le_refl; try apply Hsame.
  - unfold updateProfile in H. split_matches H; inversion H; subst;
      split; try apply ledger_le_refl; try apply Hsame.
  - unfold coursesAdd in H. split_matches H; inversion H; subst;
      split; try apply ledger_le_refl; try apply Hsame.
  - unfold coursesRemove in H. split_matches H; inversion H; subst;
      split; try apply ledger_le_refl; try apply Hsame.
  - unfold setAvailability in H. split_matches H; inversion H; subst;
      split; try apply ledger_le_refl; try apply Hsame.
  - unfold sendRequest in H. cbv zeta in H. split_matches H; inversion H; subst;
      split; try apply ledger_le_refl; try apply Hsame; simpl.
    + apply ledger_le_app.
    + intros i r Hl Hi. rewrite nth_error_app2 in Hi by exact Hl.
      destruct (i - List.length (sessionRequests s)) as [|j]; simpl in Hi.
      * inversion Hi; reflexivity.
      * destruct j; discriminate.
  - unfold accept in H. split_matches H; inversion H; subst;
      split; try apply ledger_le_refl; try apply Hsame;
      eapply set_found_status_ledger; try eassumption;
      apply negb_status_false in E2; rewrite E2; reflexivity.
  - unfold decline in H. split_matches H; inversion H; subst;
      split; try apply ledger_le_refl; try apply Hsame;
      eapply set_found_status_ledger; try eassumption;
      apply negb_status_false in E2; rewrite E2; reflexivity.
  - unfold cancel in H. cbv zeta in H. split_matches H; inversion H; subst;
      split; try apply ledger_le_refl; try apply Hsame;
      eapply set_found_status_ledger; try eassumption;
      apply negb_status_false in E2; rewrite E2; reflexivity.
Qed.

Lemma steps_ledger s s' : steps s s' -> ledger_le (sessionRequests s) (sessionRequests s').
Proof.
  induction 1 as [s|s1 s2 s3 H12 _ IH]; [apply ledger_le_refl|].
  eapply ledger_le_trans; [apply (proj1 (step_ledger _ _ H12))|exact IH].
Qed.

Lemma allowed_cases a b :
  allowed a b = true <-> a = pending \/ b = a \/ (a = accepted /\ b = cancelled).
Proof. destruct a, b; simpl; intuition congruence. Qed.

(** ** C2 *)

(** C2: over any sequence of handler calls, a request keeps its place in
    the ledger, and its status either was [pending], or is unchanged, or went
    from [accepted] to [cancelled]; so [declined] and [cancelled] never
    change and [accepted] can only become [cancelled] (after which it never
    changes).  Every request a call appends is [pending]. *)
Theorem request_status_machine (s s' : Store) (Hs : steps s s') :
  (forall i r, nth_error (sessionRequests s) i = Some r ->
     exists r', nth_error (sessionRequests s') i = Some r' /\
       (SessionRequest.status r = pending \/
        SessionRequest.status r' = SessionRequest.status r \/
        (SessionRequest.status r = accepted /\ SessionRequest.status r' = cancelled))) /\
  (forall s1 s2, step s1 s2 -> forall i r,
     List.length (sessionRequests s1) <= i -> nth_error (sessionRequests s2) i = Some r ->
     SessionRequest.status r = pending).
Proof.
  split.
  - intros i r Hi. destruct (steps_ledger _ _ Hs i r Hi) as (r' & H' & Ha).
    exists r'. split; [exact H'|]. now apply allowed_cases.
  - intros s1 s2 H12. apply (proj2 (step_ledger _ _ H12)).
Qed.

(** ** C3 *)

Lemma includes_In l x : includes l x = true <-> In x l.
Proof.
  unfold includes. rewrite existsb_exists. split.
  - intros (y & Hy & E). apply jsval_eqb_spec in E. subst. exact Hy.
  - intro H. exists x. split; [exact H|]. apply jsval_eqb_spec. reflexivity.
Qed.

Lemma includes_notIn l x : includes l x = false <-> ~ In x l.
Proof.
  rewrite <- includes_In. destruct (includes l x); split; congruence.
Qed.

(** C3: with [fromUser] the acting user and [toUser] the user the recipient
    id designates, checked in this order: [RecipientNotFound] when there is
    no such user; [SelfRequest] when it is [fromUser]; [CourseNotShared]
    when either course list lacks [course]; [SlotNotMutuallyAvailable] when
    [timeSlot] is not in both availabilities; otherwise a new [pending]
    request is appended to the ledger (with the next request id). *)
Theorem sendRequest_spec (sess : string) (recipientId : option nat)
    (course timeSlot : jsval) (now : string) (s : Store) (fromUser : User.t)
    (Hcur : getCurrentUser s sess = Some fromUser) :
  let res := sendRequest sess recipientId course timeSlot now s in
  (findUserById s recipientId = None -> fst res = Err RecipientNotFound) /\
  (forall toUser, findUserById s recipientId = Some toUser ->
     User.id toUser = User.id fromUser -> fst res = Err SelfRequest) /\
  (forall toUser, findUserById s recipientId = Some toUser ->
     User.id toUser <> User.id fromUser ->
     (~ In course (User.courses fromUser) \/ ~ In course (User.courses toUser)) ->
     fst res = Err CourseNotShared) /\
  (forall toUser, findUserById s recipientId = Some toUser ->
     User.id toUser <> User.id fromUser ->
     In course (User.courses fromUser) -> In course (User.courses toUser) ->
     ~ (In timeSlot (User.availability fromUser) /\ In timeSlot (User.availability toUser)) ->
     fst res = Err SlotNotMutuallyAvailable) /\
  (forall toUser, findUserById s recipientId = Some toUser ->
     User.id toUser <> User.id fromUser ->
     In course (User.courses fromUser) -> In course (User.courses toUser) ->
     In timeSlot (User.availability fromUser) -> In timeSlot (User.availability toUser) ->
     res = (Ok, mkStore (users s) (nextUserId s)
                  (sessionRequests s ++
                     [SessionRequest.mk (nextRequestId s) (User.id fromUser) (User.id toUser)
                        course timeSlot pending now])
                  (S (nextRequestId s)))).
Proof.
  intro res. unfold res, sendRequest. cbv zeta. rewrite Hcur.
  repeat split.
  - intros H. rewrite H. reflexivity.
  - intros to H Hid. rewrite H, Hid, Nat.eqb_refl. reflexivity.
  - intros to H Hid Hc. rewrite H.
    apply Nat.eqb_neq in Hid. rewrite Hid.
    destruct Hc as [Hc|Hc]; apply includes_notIn in Hc; rewrite Hc;
      [reflexivity|]. rewrite orb_true_r. reflexivity.
  - intros to H Hid Hc1 Hc2 Hslot. rewrite H.
    apply Nat.eqb_neq in Hid. rewrite Hid.
    apply includes_In in Hc1, Hc2. rewrite Hc1, Hc2. simpl.
    destruct (includes (User.availability fromUser) timeSlot) eqn:E1,
             (includes (User.availability to) timeSlot) eqn:E2; simpl; try reflexivity.
    apply includes_In in E1, E2. tauto.
  - intros to H Hid Hc1 Hc2 Ht1 Ht2. rewrite H.
    apply Nat.eqb_neq in Hid. rewrite Hid.
    apply includes_In in Hc1, Hc2, Ht1, Ht2. rewrite Hc1, Hc2, Ht1, Ht2. reflexivity.
Qed.

(** ** C4 *)

Lemma find_update_first {A} (p : A -> bool) (f : A -> A) l x :
  find p l = Some x -> p (f x) = true -> find p (update_first p f l) = Some (f x).
Proof.
  induction l as [|y l IH]; simpl; [discriminate|].
  destruct (p y) eqn:Ey.
  - intros H Hp. inversion H; subst. simpl. rewrite Hp. reflexivity.
  - intros H Hp. simpl. rewrite Ey. exact (IH H Hp).
Qed.

Lemma find_request_set_found s rid st x :
  find_request s rid = Some x ->
  find_request (set_found_status s rid st) rid = Some (SessionRequest.set_status st x).
Proof.
  intro H. apply find_update_first; [exact H|].
  unfold find_request in H. apply find_some in H as [_ Hp].
  destruct x; exact Hp.
Qed.

Lemma getCurrentUser_set_found s sess rid st :
  getCurrentUser (set_found_status s rid st) sess = getCurrentUser s sess.
Proof. reflexivity. Qed.

Lemma accept_decline_not_pending sess reqId s user found :
  getCurrentUser s sess = Some user ->
  find_request s reqId = Some found ->
  SessionRequest.toUserId found = User.id user ->
  SessionRequest.status found <> pending ->
  fst (accept sess reqId s) = Err InvalidState /\
  fst (decline sess reqId s) = Err InvalidState.
Proof.
  intros Hcur Hf Hto Hst. unfold accept, decline. rewrite Hcur, Hf, Hto, Nat.eqb_refl. simpl.
  destruct (SessionRequest.status found); try contradiction; split; reflexivity.
Qed.

Lemma accept_decline_ok sess reqId s user found :
  getCurrentUser s sess = Some user ->
  find_request s reqId = Some found ->
  SessionRequest.toUserId found = User.id user ->
  SessionRequest.status found = pending ->
  accept sess reqId s = (Ok, set_found_status s reqId accepted) /\
  decline sess reqId s = (Ok, set_found_status s reqId declined).
Proof.
  intros Hcur Hf Hto Hst. unfold accept, decline.
  rewrite Hcur, Hf, Hto, Nat.eqb_refl, Hst. split; reflexivity.
Qed.

(** C4: for the acting user [user] and the request [found] the id
    designates, [accept] and [decline] fail with [RequestNotFound] when there
    is none, then [NotAuthorized] when [user] is not its recipient, then
    [InvalidState] when it is not [pending]; otherwise they set its status to
    [accepted] (resp. [declined]).  A second [accept] or [decline] of the same
    request by the same user after a successful one fails with
    [InvalidState]. *)
Theorem accept_decline_spec (sess : string) (reqId : option nat) (s : Store)
    (user : User.t) (Hcur : getCurrentUser s sess = Some user) :
  (find_request s reqId = None ->
     fst (accept sess reqId s) = Err RequestNotFound /\
     fst (decline sess reqId s) = Err RequestNotFound) /\
  (forall found, find_request s reqId = Some found ->
     SessionRequest.toUserId found <> User.id user ->
     fst (accept sess reqId s) = Err NotAuthorized /\
     fst (decline sess reqId s) = Err NotAuthorized) /\
  (forall found, find_request s reqId = Some found ->
     SessionRequest.toUserId found = User.id user ->
     SessionRequest.status found <> pending ->
     fst (accept sess reqId s) = Err InvalidState /\
     fst (decline sess reqId s) = Err InvalidState) /\
  (forall found, find_request s reqId = Some found ->
     SessionRequest.toUserId found = User.id user ->
     SessionRequest.status found = pending ->
     accept sess reqId s = (Ok, set_found_status s reqId accepted) /\
     find_request (set_found_status s reqId accepted) reqId
       = Some (SessionRequest.set_status accepted found) /\
     decline sess reqId s = (Ok, set_found_status s reqId declined) /\
     find_request (set_found_status s reqId declined) reqId
       = Some (SessionRequest.set_status declined found)) /\
  (forall s1, (accept sess reqId s = (Ok, s1) \/ decline sess reqId s = (Ok, s1)) ->
     fst (accept sess reqId s1) = Err InvalidState /\
     fst (decline sess reqId s1) = Err InvalidState).
Proof.
  split; [|split; [|split; [|split]]].
  - intro H. unfold accept, decline. rewrite H. split; reflexivity.
  - intros f Hf Hto. unfold accept, decline. rewrite Hcur, Hf.
    apply Nat.eqb_neq in Hto. rewrite Hto. split; reflexivity.
  - intros f Hf Hto Hst. exact (accept_decline_not_pending _ _ _ _ _ Hcur Hf Hto Hst).
  - intros f Hf Hto Hst.
    destruct (accept_decline_ok _ _ _ _ _ Hcur Hf Hto Hst) as [Ha Hd].
    repeat split; try assumption; now apply find_request_set_found.
  - intros s1 Hs1.
    destruct (find_request s reqId) as [f|] eqn:Hf.
    2:{ unfold accept, decline in Hs1. rewrite Hf in Hs1.
        destruct Hs1 as [H|H]; discriminate. }
    destruct (Nat.eqb (SessionRequest.toUserId f) (User.id user)) eqn:Hto.
    2:{ unfold accept, decline in Hs1. rewrite Hcur, Hf, Hto in Hs1.
        destruct Hs1 as [H|H]; discriminate. }
    apply Nat.eqb_eq in Hto.
    assert (Hst : SessionRequest.status f = pending).
    { destruct (SessionRequest.status f) eqn:E; [reflexivity|..];
        assert (Hn : SessionRequest.status f <> pending) by congruence;
        destruct (accept_decline_not_pending _ _ _ _ _ Hcur Hf Hto Hn) as [Ha Hd];
        destruct Hs1 as [H|H]; rewrite H in *; discriminate. }
    destruct (accept_decline_ok _ _ _ _ _ Hcur Hf Hto Hst) as [Ha Hd].
    destruct Hs1 as [H|H]; [rewrite Ha in H|rewrite Hd in H]; inversion H; subst;
      eapply accept_decline_not_pending;
      first [ rewrite getCurrentUser_set_found; exact Hcur
            | apply find_request_set_found; exact Hf
            | destruct f; simpl in *; first [exact Hto | discriminate] ].
Qed.

(** ** C5 *)

(** C5: for an existing request [found] and the acting user [user]:
    [cancel] fails with [NotAuthorized] when [user] is neither its sender nor
    its recipient, whatever its status; by a participant it fails with
    [InvalidState] whenever the status is not [accepted] (in particular when
    it is [pending]); by a participant of an [accepted] request it succeeds
    and the request becomes [cancelled]. *)
Theorem cancel_spec (sess : string) (reqId : option nat) (s : Store)
    (user : User.t) (found : SessionRequest.t)
    (Hcur : getCurrentUser s sess = Some user)
    (Hf : find_request s reqId = Some found) :
  let participant := SessionRequest.fromUserId found = User.id user \/
                     SessionRequest.toUserId found = User.id user in
  (~ participant -> fst (cancel sess reqId s) = Err NotAuthorized) /\
  (participant -> SessionRequest.status found <> accepted ->
     fst (cancel sess reqId s) = Err InvalidState) /\
  (participant -> SessionRequest.status found = accepted ->
     cancel sess reqId s = (Ok, set_found_status s reqId cancelled) /\
     find_request (set_found_status s reqId cancelled) reqId
       = Some (SessionRequest.set_status cancelled found)).
Proof.
  intro participant. unfold cancel. cbv zeta. rewrite Hcur, Hf.
  assert (Hp : participant <->
     (Nat.eqb (SessionRequest.fromUserId found) (User.id user)
      || Nat.eqb (SessionRequest.toUserId found) (User.id user)) = true).
  { unfold participant. rewrite orb_true_iff, !Nat.eqb_eq. reflexivity. }
  split; [|split].
  - intro Hn. destruct (_ || _) eqn:E; [exfalso; apply Hn, Hp; reflexivity|reflexivity].
  - intros Hy Hst. apply Hp in Hy. rewrite Hy. simpl.
    destruct (SessionRequest.status found); try reflexivity. contradiction.
  - intros Hy Hst. apply Hp in Hy. rewrite Hy, Hst. split; [reflexivity|].
    now apply find_request_set_found.
Qed.

(** ** C6 *)

(** C6: a call of [sendRequest], [accept], [decline], [cancel] or
    [register] that returns an error leaves the whole store (users, ledger
    and id counters) as it was. *)
Theorem failed_calls_do_not_mutate (s : Store) (e : error) :
  (forall sess rid course slot now s',
     sendRequest sess rid course slot now s = (Err e, s') -> s' = s) /\
  (forall sess rid s', accept sess rid s = (Err e, s') -> s' = s) /\
  (forall sess rid s', decline sess rid s = (Err e, s') -> s' = s) /\
  (forall sess rid s', cancel sess rid s = (Err e, s') -> s' = s) /\
  (forall hash un pw cpw fn ln mj s',
     register hash un pw cpw fn ln mj s = (Err e, s') -> s' = s).
Proof.
  repeat split.
  - intros sess rid c t now s' H. unfold sendRequest in H. cbv zeta in H.
    split_matches H; inversion H; reflexivity.
  - intros sess rid s' H. unfold accept in H. split_matches H; inversion H; reflexivity.
  - intros sess rid s' H. unfold decline in H. split_matches H; inversion H; reflexivity.
  - intros sess rid s' H. unfold cancel in H. cbv zeta in H.
    split_matches H; inversion H; reflexivity.
  - intros hash un pw cpw fn ln mj s' H. unfold register in H.
    split_matches H; inversion H; reflexivity.
Qed.

(** ** C7 *)

Lemma update_first_in {A} (p : A -> bool) (f : A -> A) l y :
  In y (update_first p f l) -> In y l \/ exists x, find p l = Some x /\ y = f x.
Proof.
  induction l as [|z l IH]; simpl; [tauto|].
  destruct (p z) eqn:Ez; simpl.
  - intros [<-|H]; [right; eauto|left; right; exact H].
  - intros [<-|H]; [left; left; reflexivity|].
    destruct (IH H) as [H'|H']; [left; right; exact H'|right; exact H'].
Qed.

Definition courses_nodup (s : Store) : Prop :=
  forall u, In u (users s) -> NoDup (User.courses u).

Lemma update_current_nodup s sess f :
  (forall x, getCurrentUser s sess = Some x -> NoDup (User.courses x) ->
     NoDup (User.courses (f x))) ->
  courses_nodup s -> courses_nodup (update_current s sess f).
Proof.
  intros Hf Hs u Hu. simpl in Hu.
  destruct (update_first_in _ _ _ _ Hu) as [H|(x & Hx & ->)]; [now apply Hs|].
  apply Hf; [exact Hx|]. apply Hs. apply find_some in Hx. apply Hx.
Qed.

Lemma step_courses_nodup s s' : step s s' -> courses_nodup s -> courses_nodup s'.
Proof.
  intros Hs Hn; destruct Hs as
    [hash un pw cpw fn ln mj s o s' H | sess n m s o s' H | sess c s o s' H
    | sess c s o s' H | sess a s o s' H | sess rid c t now s o s' H
    | sess rid s o s' H | sess rid s o s' H | sess rid s o s' H].
  - unfold register in H. split_matches H; inversion H; subst; try exact Hn.
    intros u Hu. simpl in Hu. apply in_app_or in Hu as [Hu|[<-|[]]];
      [now apply Hn|constructor].
  - unfold updateProfile in H. split_matches H; inversion H; subst; try exact Hn.
    apply update_current_nodup; [|exact Hn]. intros x _ Hx. exact Hx.
  - unfold coursesAdd in H. split_matches H; inversion H; subst; try exact Hn.
    apply update_current_nodup; [|exact Hn]. intros x Hx Hnd.
    rewrite E0 in Hx. inversion Hx; subst. simpl.
    apply NoDup_app; [exact Hnd|repeat constructor; simpl; tauto|].
    intros y Hy [<-|[]]. apply includes_notIn in E1. contradiction.
  - unfold coursesRemove in H. split_matches H; inversion H; subst; try exact Hn.
    apply update_current_nodup; [|exact Hn]. intros x _ Hx. simpl.
    now apply NoDup_filter.
  - unfold setAvailability in H. split_matches H; inversion H; subst; try exact Hn.
    apply update_current_nodup; [|exact Hn]. intros x _ Hx. exact Hx.
  - unfold sendRequest in H. cbv zeta in H. split_matches H; inversion H; subst; exact Hn.
  - unfold accept in H. split_matches H; inversion H; subst; exact Hn.
  - unfold decline in H. split_matches H; inversion H; subst; exact Hn.
  - unfold cancel in H. cbv zeta in H. split_matches H; inversion H; subst; exact Hn.
Qed.

Lemma reachable_courses_nodup s : reachable s -> courses_nodup s.
Proof.
  unfold reachable. intro H.
  assert (Hgen : forall s0, steps s0 s -> courses_nodup s0 -> courses_nodup s).
  { clear H. intros s0 Hs. induction Hs as [s0|s1 s2 s3 H12 _ IH]; [tauto|].
    intro Hn. apply IH. eapply step_courses_nodup; eassumption. }
  apply (Hgen _ H). intros u [].
Qed.

Lemma in_mutualCourses a b c :
  In c (mutualCourses a b) <-> In c (User.courses a) /\ In c (User.courses b).
Proof. unfold mutualCourses. rewrite filter_In, includes_In. reflexivity. Qed.

(** C7: for users [A] and [B] of any reachable store, the mutual courses of
    [A] with [B] and of [B] with [A] are the same set (the two lists are
    permutations of each other: each is in its first user's course order),
    and neither list contains a course twice. *)
Theorem mutualCourses_sym_nodup (s : Store) (A B : User.t)
    (Hs : reachable s) (HA : In A (users s)) (HB : In B (users s)) :
  Permutation (mutualCourses A B) (mutualCourses B A) /\
  (forall c, In c (mutualCourses A B) <-> In c (mutualCourses B A)) /\
  NoDup (mutualCourses A B) /\ NoDup (mutualCourses B A).
Proof.
  pose proof (reachable_courses_nodup s Hs) as Hn.
  assert (NA : NoDup (mutualCourses A B)) by (apply NoDup_filter, Hn, HA).
  assert (NB : NoDup (mutualCourses B A)) by (apply NoDup_filter, Hn, HB).
  assert (Hiff : forall c, In c (mutualCourses A B) <-> In c (mutualCourses B A)).
  { intro c. rewrite !in_mutualCourses. tauto. }
  repeat split; try assumption; try apply Hiff.
  apply NoDup_Permutation; assumption.
Qed.

(** ** C8 *)

(** C8: the major stage of the classmate search is a no-op without a major
    filter; with a filter [m] whose trimmed value is non-empty it keeps, in
    order, exactly the results whose major, lower-cased, equals [m] trimmed
    and lower-cased (string equality, not a substring test).  So ["cs"] keeps
    a result of major ["CS"] and drops one of major ["ECE"]. *)
Theorem majorStage_spec (results : list SearchResult.t) :
  majorStage JUndefined results = results /\
  (forall m, trim m <> EmptyString ->
     majorStage (JStr m) results
     = filter (fun r => String.eqb (toLowerCase (SearchResult.major r))
                                   (toLowerCase (trim m))) results /\
     (forall r, In r (majorStage (JStr m) results) <->
        In r results /\ toLowerCase (SearchResult.major r) = toLowerCase (trim m))) /\
  (forall rCS rECE, SearchResult.major rCS = "CS"%string -> SearchResult.major rECE = "ECE"%string ->
     majorStage (JStr "cs"%string) [rCS; rECE] = [rCS]).
Proof.
  assert (Hgiven : forall m results, trim m <> EmptyString ->
     majorStage (JStr m) results
     = filter (fun r => String.eqb (toLowerCase (SearchResult.major r))
                                   (toLowerCase (trim m))) results).
  { intros m rs Hm. unfold majorStage.
    destruct m as [|c m'] eqn:Em; [exfalso; apply Hm; reflexivity|].
    simpl truthy. simpl negb.
    destruct (trim (String c m')) as [|c' t] eqn:Et; [contradiction|]. reflexivity. }
  split; [reflexivity|split].
  - intros m Hm. split; [now apply Hgiven|].
    intro r. rewrite Hgiven by exact Hm. rewrite filter_In, String.eqb_eq. reflexivity.
  - intros rCS rECE H1 H2. rewrite Hgiven by discriminate. simpl.
    rewrite H1, H2. reflexivity.
Qed.

(** ** C9 *)

Lemma getCurrentUser_update_current s sess f x :
  getCurrentUser s sess = Some x -> User.username (f x) = User.username x ->
  getCurrentUser (update_current s sess f) sess = Some (f x).
Proof.
  intros H Hu. unfold getCurrentUser, update_current in *. simpl.
  apply find_update_first; [exact H|].
  apply find_some in H as [_ Hp]. rewrite Hu. exact Hp.
Qed.

(** C9: setting the availability stores exactly the submitted values (a
    single value becomes a one-element list) without removing repeats.  With
    the slot ["Mon10"] submitted twice, the stored availability has a
    duplicate, the overlap with a user available at ["Mon10"] lists the slot
    twice, and the suggested match gets score 1 + 2 = 3 rather than 1 + 1. *)
Theorem setAvailability_keeps_duplicates :
  (forall sess a s u, getCurrentUser s sess = Some u ->
     exists u', fst (setAvailability sess a s) = Ok /\
       getCurrentUser (snd (setAvailability sess a s)) sess = Some u' /\
       User.availability u' = normalize a /\
       User.id u' = User.id u /\ User.courses u' = User.courses u) /\
  (forall v, normalize (FOne v) = [v]) /\
  (let mon10 := JStr "Mon10" in
   let A := User.mk 1 "a@clemson.edu" "hashA" "Ann Lee" "CS" [JStr "CS101"] [] in
   let B := User.mk 2 "b@clemson.edu" "hashB" "Bo Kim" "CS" [JStr "CS101"] [mon10] in
   let s0 := mkStore [A; B] 3 [] 1 in
   let s1 := snd (setAvailability "a@clemson.edu" (FMany [mon10; mon10]) s0) in
   exists A', getCurrentUser s1 "a@clemson.edu" = Some A' /\
     User.availability A' = [mon10; mon10] /\
     ~ NoDup (User.availability A') /\
     overlappingAvailability A' B = [mon10; mon10] /\
     map Match.score (suggestedMatches A' (users s1)) = [3]).
Proof.
  split; [|split].
  - intros sess a s u Hu. unfold setAvailability. rewrite Hu.
    eexists. split; [reflexivity|]. split.
    + simpl snd. apply getCurrentUser_update_current; [exact Hu|reflexivity].
    + repeat split.
  - reflexivity.
  - intros mon10 A B s0 s1. eexists. split; [reflexivity|].
    split; [reflexivity|]. split.
    + simpl. intro H. inversion H as [|x l Hx _]; subst. apply Hx. left. reflexivity.
    + split; reflexivity.
Qed.

(** ** C10 *)

(** C10: [usersJson] has one entry per user, in store order, made of exactly
    its id, username, name and major; it depends on nothing else of a user
    (two stores whose users agree on these four fields give the same view,
    whatever their password hashes, courses and availability).  [requestsJson]
    lists as [incoming] exactly the ledger records addressed to the user and
    as [outgoing] exactly those sent by the user, as the records themselves,
    in ledger order. *)
Theorem json_views_spec :
  (forall s i u, nth_error (users s) i = Some u ->
     nth_error (usersJson s) i
     = Some (MinimalUser.mk (User.id u) (User.username u) (User.name u) (User.major u))) /\
  (forall s, List.length (usersJson s) = List.length (users s)) /\
  (forall s1 s2,
     map (fun u => (User.id u, User.username u, User.name u, User.major u)) (users s1)
     = map (fun u => (User.id u, User.username u, User.name u, User.major u)) (users s2) ->
     usersJson s1 = usersJson s2) /\
  (forall user s r,
     (In r (incoming (requestsJson user s)) <->
        In r (sessionRequests s) /\ SessionRequest.toUserId r = User.id user) /\
     (In r (outgoing (requestsJson user s)) <->
        In r (sessionRequests s) /\ SessionRequest.fromUserId r = User.id user)) /\
  (forall user s,
     incoming (requestsJson user s)
     = filter (fun r => Nat.eqb (SessionRequest.toUserId r) (User.id user)) (sessionRequests s) /\
     outgoing (requestsJson user s)
     = filter (fun r => Nat.eqb (SessionRequest.fromUserId r) (User.id user)) (sessionRequests s)).
Proof.
  split; [|split; [|split; [|split]]].
  - intros s i u H. unfold usersJson. rewrite nth_error_map, H. reflexivity.
  - intro s. unfold usersJson. apply length_map.
  - intros s1 s2 H. unfold usersJson.
    remember (users s1) as l1 eqn:E1. remember (users s2) as l2 eqn:E2. clear E1 E2.
    revert l2 H. induction l1 as [|u l1 IH]; intros [|v l2] H; simpl in *;
      try discriminate; [reflexivity|].
    inversion H as [[Hid Hun Hn Hm Ht]]. rewrite Hid, Hun, Hn, Hm, (IH l2 Ht). reflexivity.
  - intros user s r. unfold requestsJson. simpl.
    rewrite !filter_In, !Nat.eqb_eq. split; reflexivity.
  - intros user s. split; reflexivity.
Qed.

(** * Witnesses: the theorems at the sample data *)

Lemma steps_snoc s1 s2 s3 : steps s1 s2 -> step s2 s3 -> steps s1 s3.
Proof.
  induction 1 as [s|s1 s2 s2' H12 _ IH]; intro H.
  - eapply steps_cons; [exact H|apply steps_refl].
  - eapply steps_cons; [exact H12|exact (IH H)].
Qed.

Lemma suggestedMatches_spec_witness :
  map Match.id (suggestedMatches userA [userA; userB; userC]) = [2; 3] /\
  map Match.score (suggestedMatches userA [userA; userB; userC]) = [2; 2] /\
  (forall m, In m (suggestedMatches userA [userA; userB; userC]) -> Match.id m <> User.id userA).
Proof.
  split; [reflexivity|split; [reflexivity|]].
  apply (proj1 (suggestedMatches_spec userA [userA; userB; userC])).
Defined.

Lemma request_status_machine_witness :
  steps scenario1 scenario3 /\
  nth_error (sessionRequests scenario1) 0 = Some request1 /\
  exists r', nth_error (sessionRequests scenario3) 0 = Some r' /\
    (SessionRequest.status request1 = pending \/
     SessionRequest.status r' = SessionRequest.status request1 \/
     (SessionRequest.status request1 = accepted /\ SessionRequest.status r' = cancelled)).
Proof.
  assert (H : steps scenario1 scenario3).
  { eapply steps_cons; [apply (step_accept "a@clemson.edu" (Some 1) scenario1 Ok); reflexivity|].
    eapply steps_cons; [apply (step_cancel "a@clemson.edu" (Some 1) scenario2 Ok); reflexivity|].
    apply steps_refl. }
  assert (Hn : nth_error (sessionRequests scenario1) 0 = Some request1) by reflexivity.
  split; [exact H|split; [exact Hn|]].
  exact (proj1 (request_status_machine scenario1 scenario3 H) 0 request1 Hn).
Defined.

Lemma sendRequest_spec_witness :
  getCurrentUser sampleStore "b@clemson.edu" = Some userB /\
  findUserById sampleStore (Some 1) = Some userA /\
  sendRequest "b@clemson.edu" (Some 1) MATH1 T1 now0 sampleStore
  = (Ok, mkStore (users sampleStore) 4 [request1] 2).
Proof.
  assert (Hcur : getCurrentUser sampleStore "b@clemson.edu" = Some userB) by reflexivity.
  assert (Hto : findUserById sampleStore (Some 1) = Some userA) by reflexivity.
  split; [exact Hcur|split; [exact Hto|]].
  destruct (sendRequest_spec "b@clemson.edu" (Some 1) MATH1 T1 now0 sampleStore userB Hcur)
    as (_ & _ & _ & _ & Hok).
  apply Hok with (toUser := userA); [exact Hto|discriminate|simpl; tauto..].
Defined.

Lemma accept_decline_spec_witness :
  getCurrentUser scenario1 "a@clemson.edu" = Some userA /\
  find_request scenario1 (Some 1) = Some request1 /\
  accept "a@clemson.edu" (Some 1) scenario1 = (Ok, set_found_status scenario1 (Some 1) accepted) /\
  fst (accept "a@clemson.edu" (Some 1) (set_found_status scenario1 (Some 1) accepted))
  = Err InvalidState.
Proof.
  assert (Hcur : getCurrentUser scenario1 "a@clemson.edu" = Some userA) by reflexivity.
  assert (Hf : find_request scenario1 (Some 1) = Some request1) by reflexivity.
  destruct (accept_decline_spec "a@clemson.edu" (Some 1) scenario1 userA Hcur)
    as (_ & _ & _ & Hok & Htwice).
  destruct (Hok request1 Hf eq_refl eq_refl) as (Ha & _).
  split; [exact Hcur|split; [exact Hf|split; [exact Ha|]]].
  exact (proj1 (Htwice _ (or_introl Ha))).
Defined.

Lemma cancel_spec_witness :
  getCurrentUser scenario1 "c@clemson.edu" = Some userC /\
  find_request scenario1 (Some 1) = Some request1 /\
  fst (cancel "c@clemson.edu" (Some 1) scenario1) = Err NotAuthorized /\
  getCurrentUser scenario1 "a@clemson.edu" = Some userA /\
  fst (cancel "a@clemson.edu" (Some 1) scenario1) = Err InvalidState.
Proof.
  assert (Hc : getCurrentUser scenario1 "c@clemson.edu" = Some userC) by reflexivity.
  assert (Ha : getCurrentUser scenario1 "a@clemson.edu" = Some userA) by reflexivity.
  assert (Hf : find_request scenario1 (Some 1) = Some request1) by reflexivity.
  split; [exact Hc|split; [exact Hf|split; [|split; [exact Ha|]]]].
  - apply (proj1 (cancel_spec "c@clemson.edu" (Some 1) scenario1 userC request1 Hc Hf)).
    simpl. intros [H|H]; discriminate.
  - apply (proj1 (proj2 (cancel_spec "a@clemson.edu" (Some 1) scenario1 userA request1 Ha Hf))).
    + right. reflexivity.
    + discriminate.
Defined.

Lemma failed_calls_do_not_mutate_witness :
  sendRequest "a@clemson.edu" (Some 1) MATH1 T1 now0 sampleStore = (Err SelfRequest, sampleStore) /\
  sampleStore = sampleStore.
Proof.
  assert (H : sendRequest "a@clemson.edu" (Some 1) MATH1 T1 now0 sampleStore
              = (Err SelfRequest, sampleStore)) by reflexivity.
  split; [exact H|].
  exact (proj1 (failed_calls_do_not_mutate sampleStore SelfRequest) _ _ _ _ _ _ H).
Defined.

Lemma mutualCourses_sym_nodup_witness :
  reachable coursesStore /\
  In (nth 0 (users coursesStore) userA) (users coursesStore) /\
  In (nth 1 (users coursesStore) userA) (users coursesStore) /\
  mutualCourses (nth 0 (users coursesStore) userA) (nth 1 (users coursesStore) userA) = [MATH1] /\
  NoDup (mutualCourses (nth 0 (users coursesStore) userA) (nth 1 (users coursesStore) userA)).
Proof.
  assert (Hr : reachable coursesStore).
  { unfold reachable, coursesStore, registered.
    eapply steps_snoc; [|eapply step_coursesAdd; apply surjective_pairing].
    eapply steps_snoc; [|eapply step_coursesAdd; apply surjective_pairing].
    eapply steps_snoc; [|eapply step_coursesAdd; apply surjective_pairing].
    eapply steps_snoc; [|eapply step_coursesAdd; apply surjective_pairing].
    eapply steps_snoc; [|eapply step_register; apply surjective_pairing].
    eapply steps_snoc; [|eapply step_register; apply surjective_pairing].
    apply steps_refl. }
  assert (HA : In (nth 0 (users coursesStore) userA) (users coursesStore))
    by (vm_compute; left; reflexivity).
  assert (HB : In (nth 1 (users coursesStore) userA) (users coursesStore))
    by (vm_compute; right; left; reflexivity).
  split; [exact Hr|split; [exact HA|split; [exact HB|split; [reflexivity|]]]].
  exact (proj1 (proj2 (proj2 (mutualCourses_sym_nodup _ _ _ Hr HA HB)))).
Defined.

Lemma majorStage_spec_witness :
  let results := search userA [userA; userB; userC] JUndefined JUndefined (FOne JUndefined) in
  map SearchResult.major results = ["ECE"; "CS"]%string /\
  trim " cs " = "cs"%string /\
  map SearchResult.id (majorStage (JStr " cs ") results) = [3].
Proof.
  intro results.
  split; [reflexivity|split; [reflexivity|]].
  destruct (proj2 (majorStage_spec results)) as [Hgiven _].
  rewrite (proj1 (Hgiven " cs "%string ltac:(discriminate))). reflexivity.
Defined.

Lemma setAvailability_keeps_duplicates_witness :
  getCurrentUser sampleStore "c@clemson.edu" = Some userC /\
  exists u', getCurrentUser (snd (setAvailability "c@clemson.edu" (FOne T1) sampleStore))
               "c@clemson.edu" = Some u' /\ User.availability u' = [T1].
Proof.
  assert (H : getCurrentUser sampleStore "c@clemson.edu" = Some userC) by reflexivity.
  split; [exact H|].
  destruct (proj1 setAvailability_keeps_duplicates "c@clemson.edu"%string (FOne T1) sampleStore userC H)
    as (u' & _ & Hu & Ha & _).
  exists u'. split; [exact Hu|exact Ha].
Defined.

Lemma json_views_spec_witness :
  nth_error (users sampleStore) 1 = Some userB /\
  nth_error (usersJson sampleStore) 1
  = Some (MinimalUser.mk 2 "b@clemson.edu" "Bo Kim" "ECE") /\
  incoming (requestsJson userA scenario1) = [request1] /\
  outgoing (requestsJson userA scenario1) = [].
Proof.
  assert (H : nth_error (users sampleStore) 1 = Some userB) by reflexivity.
  split; [exact H|split].
  - exact (proj1 json_views_spec sampleStore 1 userB H).
  - destruct (proj2 (proj2 (proj2 (proj2 json_views_spec))) userA scenario1) as [Hi Ho].
    rewrite Hi, Ho. split; reflexivity.
Defined.

(** * The end-to-end scenarios of the specification *)

Example scenario_cancel_twice :
  SessionRequest.status request1 = pending /\
  find_request scenario2 (Some 1) = Some (SessionRequest.set_status accepted request1) /\
  find_request scenario3 (Some 1) = Some (SessionRequest.set_status cancelled request1) /\
  fst (cancel "a@clemson.edu" (Some 1) scenario3) = Err InvalidState.
Proof. repeat split; vm_compute; reflexivity. Qed.

Example scenario_suggested_tie :
  map (fun m => (Match.id m, Match.score m)) (suggestedMatches userA [userA; userB; userC])
  = [(2, 2); (3, 2)].
Proof. reflexivity. Qed.

(** * Further properties of the handlers *)

(** ** Store invariants *)

Lemma map_update_first {A B} (g : A -> B) (p : A -> bool) f l :
  (forall x, g (f x) = g x) -> map g (update_first p f l) = map g l.
Proof.
  intro Hg. induction l as [|x l IH]; simpl; [reflexivity|].
  destruct (p x); simpl; rewrite ?Hg, ?IH; reflexivity.
Qed.

Lemma in_map_same {A B} (g : A -> B) (l l' : list A) u :
  map g l' = map g l -> In u l' -> exists u0, In u0 l /\ g u0 = g u.
Proof.
  intros H Hu. apply (in_map g) in Hu. rewrite H in Hu.
  apply in_map_iff in Hu as (u0 & Hg & Hu0). eauto.
Qed.

Lemma wf_same_users s s' :
  map User.username (users s') = map User.username (users s) ->
  map User.id (users s') = map User.id (users s) ->
  nextUserId s' = nextUserId s ->
  sessionRequests s' = sessionRequests s -> nextRequestId s' = nextRequestId s ->
  store_wf s -> store_wf s'.
Proof.
  intros Hn Hi Hnu Hr Hnr [W1 W2 W3 W4 W5 W6 W7 W8 W9].
  constructor; rewrite ?Hn, ?Hi, ?Hnu, ?Hr, ?Hnr; try assumption.
  - intros u Hu. destruct (in_map_same _ _ _ _ Hn Hu) as (u0 & H0 & E).
    rewrite <- E. now apply W2.
  - intros u Hu. destruct (in_map_same _ _ _ _ Hi Hu) as (u0 & H0 & E).
    rewrite <- E. now apply W4.
Qed.

Lemma wf_update_current s sess f :
  (forall x, User.username (f x) = User.username x) -> (forall x, User.id (f x) = User.id x) ->
  store_wf s -> store_wf (update_current s sess f).
Proof.
  intros Hu Hi. apply wf_same_users; try reflexivity; simpl; now apply map_update_first.
Qed.

Lemma wf_set_found_status s rid st :
  store_wf s -> store_wf (set_found_status s rid st).
Proof.
  intros [W1 W2 W3 W4 W5 W6 W7 W8 W9].
  assert (Hin : forall r', In r' (sessionRequests (set_found_status s rid st)) ->
    exists r, In r (sessionRequests s) /\ SessionRequest.id r' = SessionRequest.id r /\
      SessionRequest.fromUserId r' = SessionRequest.fromUserId r /\
      SessionRequest.toUserId r' = SessionRequest.toUserId r).
  { intros r' H. simpl in H. destruct (update_first_in _ _ _ _ H) as [H'|(x & Hx & ->)].
    - exists r'. auto.
    - exists x. apply find_some in Hx. destruct x; simpl. intuition. }
  constructor; simpl; try assumption.
  - rewrite map_update_first by (intros []; reflexivity). exact W5.
  - intros r' H. destruct (Hin r' H) as (r & Hr & -> & _ & _). now apply W6.
  - intros r' H. destruct (Hin r' H) as (r & Hr & _ & -> & ->). now apply W7.
  - intros r' H. destruct (Hin r' H) as (r & Hr & _ & -> & _). now apply W8.
  - intros r' H. destruct (Hin r' H) as (r & Hr & _ & _ & ->). now apply W9.
Qed.

Lemma NoDup_snoc {A} (l : list A) x : NoDup l -> ~ In x l -> NoDup (l ++ [x]).
Proof.
  intros Hl Hx. apply NoDup_app; [exact Hl|repeat constructor; simpl; tauto|].
  intros y Hy [<-|[]]. contradiction.
Qed.

Lemma lt_not_in_ids {A} (g : A -> nat) l n :
  (forall x, In x l -> g x < n) -> ~ In n (map g l).
Proof.
  intros H Hin. apply in_map_iff in Hin as (x & Ex & Hx). specialize (H x Hx). lia.
Qed.

Lemma step_wf s s' : step s s' -> store_wf s -> store_wf s'.
Proof.
  intros Hs Hwf; destruct Hs as
    [hash un pw cpw fn ln mj s o s' H | sess n m s o s' H | sess c s o s' H
    | sess c s o s' H | sess a s o s' H | sess rid c t now s o s' H
    | sess rid s o s' H | sess rid s o s' H | sess rid s o s' H].
  - unfold register in H. split_matches H; inversion H; subst; try exact Hwf.
    destruct Hwf as [W1 W2 W3 W4 W5 W6 W7 W8 W9].
    constructor; simpl; try assumption.
    + rewrite map_app. apply NoDup_snoc; [exact W1|].
      intro Hin. apply in_map_iff in Hin as (u & Eu & Hu).
      match goal with Hx : existsb _ (users s) = false |- _ =>
        rewrite <- not_true_iff_false, existsb_exists in Hx; apply Hx;
        exists u; split; [exact Hu|apply String.eqb_eq; exact Eu] end.
    + intros u Hu. apply in_app_or in Hu as [Hu|[<-|[]]]; [now apply W2|].
      simpl. match goal with Hx : negb (ends_with _ _) = false |- _ =>
        apply negb_false_iff in Hx; exact Hx end.
    + rewrite map_app. apply NoDup_snoc; [exact W3|]. now apply lt_not_in_ids.
    + intros u Hu. apply in_app_or in Hu as [Hu|[<-|[]]]; simpl; [apply W4 in Hu; lia|lia].
    + intros r Hr. rewrite map_app. apply in_or_app. left. now apply W8.
    + intros r Hr. rewrite map_app. apply in_or_app. left. now apply W9.
  - unfold updateProfile in H. split_matches H; inversion H; subst; try exact Hwf.
    apply wf_update_current; [reflexivity..|exact Hwf].
  - unfold coursesAdd in H. split_matches H; inversion H; subst; try exact Hwf.
    apply wf_update_current; [reflexivity..|exact Hwf].
  - unfold coursesRemove in H. split_matches H; inversion H; subst; try exact Hwf.
    apply wf_update_current; [reflexivity..|exact Hwf].
  - unfold setAvailability in H. split_matches H; inversion H; subst; try exact Hwf.
    apply wf_update_current; [reflexivity..|exact Hwf].
  - unfold sendRequest in H. cbv zeta in H. split_matches H; inversion H; subst; try exact Hwf.
    destruct Hwf as [W1 W2 W3 W4 W5 W6 W7 W8 W9].
    unfold findUserById, getCurrentUser in *.
    apply find_some in E as [Hto _]. apply find_some in E0 as [Hfrom _].
    apply Nat.eqb_neq in E1.
    constructor; simpl; try assumption.
    + rewrite map_app. apply NoDup_snoc; [exact W5|]. now apply lt_not_in_ids.
    + intros r Hr. apply in_app_or in Hr as [Hr|[<-|[]]]; simpl; [apply W6 in Hr; lia|lia].
    + intros r Hr. apply in_app_or in Hr as [Hr|[<-|[]]]; [now apply W7|simpl; congruence].
    + intros r Hr. apply in_app_or in Hr as [Hr|[<-|[]]]; [now apply W8|simpl; now apply in_map].
    + intros r Hr. apply in_app_or in Hr as [Hr|[<-|[]]]; [now apply W9|simpl; now apply in_map].
  - unfold accept in H. split_matches H; inversion H; subst; try exact Hwf.
    now apply wf_set_found_status.
  - unfold decline in H. split_matches H; inversion H; subst; try exact Hwf.
    now apply wf_set_found_status.
  - unfold cancel in H. cbv zeta in H. split_matches H; inversion H; subst; try exact Hwf.
    now apply wf_set_found_status.
Qed.

Lemma reachable_wf s : reachable s -> store_wf s.
Proof.
  unfold reachable. intro H.
  assert (Hgen : forall s0, steps s0 s -> store_wf s0 -> store_wf s).
  { clear H. intros s0 Hs. induction Hs as [s0|s1 s2 s3 H12 _ IH]; [tauto|].
    intro Hn. apply IH. eapply step_wf; eassumption. }
  apply (Hgen _ H). constructor; simpl; try apply NoDup_nil; intros ? [].
Qed.

Lemma NoDup_map_inj {A B} (g : A -> B) (l : list A) x y :
  NoDup (map g l) -> In x l -> In y l -> g x = g y -> x = y.
Proof.
  induction l as [|w l IH]; simpl; [tauto|].
  intros Hnd Hx Hy E. inversion Hnd as [|? ? Hnot Hnd']; subst.
  destruct Hx as [<-|Hx], Hy as [<-|Hy]; try reflexivity.
  - exfalso. apply Hnot. rewrite E. now apply in_map.
  - exfalso. apply Hnot. rewrite <- E. now apply in_map.
  - now apply IH.
Qed.

(** Usernames are unique in every reachable store and all end in
    ["@clemson.edu"], so [getCurrentUser] finds the one user of a username. *)
Theorem reachable_usernames (s : Store) (Hs : reachable s) :
  NoDup (map User.username (users s)) /\
  (forall u, In u (users s) -> ends_with "@clemson.edu" (User.username u) = true) /\
  (forall u, In u (users s) -> getCurrentUser s (User.username u) = Some u).
Proof.
  destruct (reachable_wf s Hs) as [W1 W2 _ _ _ _ _ _ _].
  split; [exact W1|split; [exact W2|]].
  intros u Hu. unfold getCurrentUser.
  destruct (find (fun u0 => String.eqb (User.username u0) (User.username u)) (users s))
    as [v|] eqn:Ef.
  - apply find_some in Ef as [Hv Ev]. apply String.eqb_eq in Ev.
    f_equal. exact (NoDup_map_inj _ _ _ _ W1 Hv Hu Ev).
  - exfalso. eapply find_none in Ef; [|exact Hu].
    rewrite String.eqb_refl in Ef. discriminate.
Qed.

(** User ids are unique and below [nextUserId] in every reachable store. *)
Theorem reachable_user_ids (s : Store) (Hs : reachable s) :
  NoDup (map User.id (users s)) /\ (forall u, In u (users s) -> User.id u < nextUserId s).
Proof. destruct (reachable_wf s Hs). split; assumption. Qed.

Lemma find_unique_key {A} (key : A -> nat) (l : list A) (x : A) :
  NoDup (map key l) -> In x l ->
  find (fun y => Nat.eqb (key y) (key x)) l = Some x.
Proof.
  induction l as [|y l IH]; simpl; [tauto|].
  intros Hnd Hx. inversion Hnd as [|? ? Hnot Hnd']; subst.
  destruct (Nat.eqb (key y) (key x)) eqn:E.
  - apply Nat.eqb_eq in E. destruct Hx as [<-|Hx]; [reflexivity|].
    exfalso. apply Hnot. rewrite E. now apply in_map.
  - destruct Hx as [<-|Hx]; [rewrite Nat.eqb_refl in E; discriminate|]. now apply IH.
Qed.

(** Request ids are unique and below [nextRequestId] in every reachable
    store, so looking a request up by its id finds that request. *)
Theorem reachable_request_ids (s : Store) (Hs : reachable s) :
  NoDup (map SessionRequest.id (sessionRequests s)) /\
  (forall r, In r (sessionRequests s) -> SessionRequest.id r < nextRequestId s) /\
  (forall r, In r (sessionRequests s) -> find_request s (Some (SessionRequest.id r)) = Some r).
Proof.
  destruct (reachable_wf s Hs) as [_ _ _ _ W5 W6 _ _ _].
  split; [exact W5|split; [exact W6|]].
  intros r Hr. unfold find_request, is_req. now apply find_unique_key.
Qed.

(** In every reachable store, no request is addressed by a user to
    themselves and both its sender and recipient ids are ids of users in the
    store (users are never deleted). *)
Theorem reachable_request_parties (s : Store) (Hs : reachable s) :
  forall r, In r (sessionRequests s) ->
    SessionRequest.fromUserId r <> SessionRequest.toUserId r /\
    In (SessionRequest.fromUserId r) (map User.id (users s)) /\
    In (SessionRequest.toUserId r) (map User.id (users s)).
Proof.
  destruct (reachable_wf s Hs). intros r Hr. auto.
Qed.

(** ** Registration and login *)

Lemma register_ok (hash : string -> option string)
    (un pw cpw fn ln mj : jsval) (s s' : Store)
    (H : register hash un pw cpw fn ln mj s = (Ok, s')) :
  exists u p f l m h,
    un = JStr u /\ pw = JStr p /\ cpw = JStr p /\ fn = JStr f /\ ln = JStr l /\ mj = JStr m /\
    ends_with "@clemson.edu" u = true /\ 8 <= String.length p /\
    ~ In u (map User.username (users s)) /\
    f <> EmptyString /\ l <> EmptyString /\ m <> EmptyString /\
    hash p = Some h /\
    s' = mkStore (users s ++ [User.mk (nextUserId s) u h (f ++ " " ++ l) m [] []])
                 (S (nextUserId s)) (sessionRequests s) (nextRequestId s).
Proof.
  unfold register in H. split_matches H; inversion H; subst.
  match goal with
  | Hd : ends_with _ ?u0 = false, Hh : hash ?p0 = Some ?h0 |- _ =>
    apply negb_false_iff in Hd; exists u0, p0
  | Hd : negb (ends_with _ ?u0) = false, Hh : hash ?p0 = Some ?h0 |- _ =>
    apply negb_false_iff in Hd; exists u0, p0
  end.
  match goal with
  | Hn : negb (truthy (JStr ?f0)) || negb (truthy (JStr ?l0)) || negb (truthy (JStr ?m0)) = false,
    Hh : hash _ = Some ?h0 |- _ =>
    exists f0, l0, m0, h0;
    rewrite !orb_false_iff, !negb_false_iff in Hn; simpl in Hn;
    destruct Hn as [[Hf Hl] Hm]; apply negb_true_iff, String.eqb_neq in Hf, Hl, Hm
  end.
  match goal with
  | Hc : negb (jsval_eqb _ cpw) = false |- _ =>
    apply negb_false_iff, jsval_eqb_spec in Hc; subst cpw
  end.
  repeat split; try assumption; try reflexivity.
  - match goal with Hlt : (String.length _ <? 8) = false |- _ =>
      apply Nat.ltb_ge in Hlt; exact Hlt end.
  - intro Hin. apply in_map_iff in Hin as (u & Eu & Hu).
    match goal with Hx : existsb _ (users s) = false |- _ =>
      rewrite <- not_true_iff_false, existsb_exists in Hx; apply Hx;
      exists u; split; [exact Hu|apply String.eqb_eq; exact Eu] end.
Qed.


(** Registering and then logging in with the same username and password
    yields a session for the new user, when [compare] accepts the hash that
    [hash] produced; a password [compare] rejects gives
    [InvalidCredentials]. *)
Theorem register_then_login (hash : string -> option string)
    (compare : jsval -> string -> option bool)
    (Hcompat : forall p h, hash p = Some h -> compare (JStr p) h = Some true)
    (un pw cpw fn ln mj : jsval) (s s' : Store)
    (H : register hash un pw cpw fn ln mj s = (Ok, s')) :
  exists u, In u (users s') /\ JStr (User.username u) = un /\
    User.id u = nextUserId s /\
    login compare un pw s' = LoggedIn u /\
    (forall wrong, compare wrong (User.password u) = Some false ->
       login compare un wrong s' = InvalidCredentials).
Proof.
  destruct (register_ok hash un pw cpw fn ln mj s s' H)
    as (u & p & f & l & m & h & -> & -> & -> & -> & -> & -> & _ & _ & Hnew & _ & _ & _ & Hh & ->).
  set (nu := User.mk (nextUserId s) u h (f ++ " " ++ l) m [] []).
  assert (Hfind : find (fun u0 => jsval_eqb (JStr (User.username u0)) (JStr u))
                       (users s ++ [nu]) = Some nu).
  { generalize (users s) Hnew. intros us Hus.
    induction us as [|w ws IH]; simpl.
    - rewrite String.eqb_refl. reflexivity.
    - simpl in Hus. destruct (String.eqb (User.username w) u) eqn:E.
      + apply String.eqb_eq in E. exfalso. apply Hus. left. exact E.
      + apply IH. intro Hin. apply Hus. right. exact Hin. }
  exists nu. split; [simpl; apply in_or_app; right; left; reflexivity|].
  split; [reflexivity|split; [reflexivity|]]. unfold login. cbn [users]. rewrite Hfind.
  split.
  - change (User.password nu) with h. rewrite (Hcompat p h Hh). reflexivity.
  - intros wrong Hw. rewrite Hw. reflexivity.
Qed.

(** ** Course lists, profile and availability *)

Lemma update_first_compose {A} (p : A -> bool) (f g : A -> A) l :
  (forall x, p x = true -> p (f x) = true) ->
  update_first p g (update_first p f l) = update_first p (fun x => g (f x)) l.
Proof.
  intro Hp. induction l as [|x l IH]; simpl; [reflexivity|].
  destruct (p x) eqn:E; simpl.
  - rewrite (Hp x E). reflexivity.
  - rewrite E, IH. reflexivity.
Qed.

Lemma update_first_fix {A} (p : A -> bool) (f : A -> A) l x :
  find p l = Some x -> f x = x -> update_first p f l = l.
Proof.
  induction l as [|y l IH]; simpl; [discriminate|].
  destruct (p y); intros H Hf.
  - inversion H; subst. rewrite Hf. reflexivity.
  - rewrite (IH H Hf). reflexivity.
Qed.

Lemma filter_neq_notin (l : list jsval) c :
  ~ In c l -> filter (fun c0 => negb (jsval_eqb c0 c)) l = l.
Proof.
  induction l as [|y l IH]; simpl; [reflexivity|]. intro Hn.
  destruct (jsval_eqb y c) eqn:E.
  - apply jsval_eqb_spec in E. subst. exfalso. apply Hn. left. reflexivity.
  - simpl. rewrite IH; [reflexivity|tauto].
Qed.

Lemma coursesAdd_cases sess course s :
  snd (coursesAdd sess course s) = s \/
  exists x, truthy course = true /\ getCurrentUser s sess = Some x /\
    ~ In course (User.courses x) /\
    snd (coursesAdd sess course s)
    = update_current s sess (fun u => with_courses (User.courses u ++ [course]) u).
Proof.
  unfold coursesAdd. destruct (truthy course) eqn:Et; simpl; [|left; reflexivity].
  destruct (getCurrentUser s sess) as [x|] eqn:Ex; [|left; reflexivity].
  destruct (includes (User.courses x) course) eqn:Ei; [left; reflexivity|].
  right. exists x. apply includes_notIn in Ei. auto.
Qed.

(** Adding a course is idempotent: adding it a second time changes
    nothing, whatever the store, session and field value. *)
Theorem coursesAdd_idempotent (sess : string) (course : jsval) (s : Store) :
  snd (coursesAdd sess course (snd (coursesAdd sess course s)))
  = snd (coursesAdd sess course s).
Proof.
  destruct (coursesAdd_cases sess course s) as [H|(x & Et & Ex & _ & H)];
    rewrite H; [exact H|].
  unfold coursesAdd at 1. rewrite Et. simpl negb. cbv iota.
  rewrite (getCurrentUser_update_current s sess _ x Ex) by reflexivity.
  replace (includes (User.courses (with_courses (User.courses x ++ [course]) x)) course)
    with true; [reflexivity|].
  symmetry. apply includes_In. simpl. apply in_or_app. right. left. reflexivity.
Qed.

(** Adding a course the current user does not have and then removing it
    gives back the store exactly. *)
Theorem coursesAdd_then_remove (sess : string) (course : jsval) (s : Store) (x : User.t)
    (Hx : getCurrentUser s sess = Some x) (Hc : ~ In course (User.courses x)) :
  snd (coursesRemove sess course (snd (coursesAdd sess course s))) = s.
Proof.
  assert (Hx' : find (fun u => String.eqb (User.username u) sess) (users s) = Some x) by exact Hx.
  destruct (coursesAdd_cases sess course s) as [H|(x' & Et & Ex & _ & H)]; rewrite H.
  - unfold coursesRemove. rewrite Hx. simpl. unfold update_current.
    rewrite (update_first_fix _ _ _ x Hx').
    + destruct s; reflexivity.
    + simpl. rewrite filter_neq_notin by exact Hc. destruct x; reflexivity.
  - rewrite Hx in Ex. inversion Ex; subst x'.
    unfold coursesRemove.
    rewrite (getCurrentUser_update_current s sess _ x Hx) by reflexivity. simpl.
    unfold update_current. simpl. rewrite update_first_compose by (intros y Hy; exact Hy).
    match goal with |- with_users _ (update_first ?p ?F _) = _ =>
      rewrite (update_first_fix p F (users s) x Hx') end.
    + destruct s; reflexivity.
    + simpl. rewrite filter_app, filter_neq_notin by exact Hc. simpl.
      replace (jsval_eqb course course) with true by (symmetry; apply jsval_eqb_spec; reflexivity).
      simpl. rewrite app_nil_r. destruct x; reflexivity.
Qed.


(** A missing availability field ([undefined], e.g. no box ticked) is
    stored as the one-element list [[undefined]]; two users whose
    availability is [[undefined]] then overlap in that value, so with a
    shared course they are suggested to each other. *)
Theorem setAvailability_missing_field :
  (forall sess s x, getCurrentUser s sess = Some x ->
     exists x', getCurrentUser (snd (setAvailability sess (FOne JUndefined) s)) sess = Some x' /\
       User.availability x' = [JUndefined]) /\
  (forall u v, User.availability u = [JUndefined] -> User.availability v = [JUndefined] ->
     overlappingAvailability u v = [JUndefined] /\
     (User.id v <> User.id u -> mutualCourses u v <> [] ->
      exists m, match_of u v = Some m /\
                Match.score m = List.length (mutualCourses u v) + 1)).
Proof.
  split.
  - intros sess s x Hx. unfold setAvailability. rewrite Hx.
    eexists. split.
    + simpl snd. apply getCurrentUser_update_current; [exact Hx|reflexivity].
    + reflexivity.
  - intros u v Hu Hv.
    assert (Ho : overlappingAvailability u v = [JUndefined])
      by (unfold overlappingAvailability; rewrite Hu, Hv; reflexivity).
    split; [exact Ho|]. intros Hid Hmc.
    eexists. split.
    + apply match_of_some. split; [exact Hid|split; [exact Hmc|split]].
      * rewrite Ho. discriminate.
      * reflexivity.
    + simpl. rewrite Ho. reflexivity.
Qed.

(** ** The classmate search *)

Lemma in_majorStage mf rs r :
  In r (majorStage mf rs) <->
  In r rs /\ (forall m, mf = JStr m -> 0 < String.length (trim m) ->
                toLowerCase (SearchResult.major r) = toLowerCase (trim m)).
Proof.
  unfold majorStage. destruct mf as [|m].
  - split; [intro H; split; [exact H|discriminate]|tauto].
  - destruct (truthy (JStr m) && (0 <? String.length (trim m))) eqn:E.
    + rewrite filter_In, String.eqb_eq. split.
      * intros [H1 H2]. split; [exact H1|]. intros m' Hm _. inversion Hm; subst. exact H2.
      * intros [H1 H2]. split; [exact H1|]. apply H2; [reflexivity|].
        apply andb_true_iff in E as [_ E]. apply Nat.ltb_lt. exact E.
    + split; [|tauto]. intro H. split; [exact H|]. intros m' Hm Hl. inversion Hm; subst m'.
      exfalso. destruct m as [|c m]; [simpl in Hl; lia|].
      simpl in E. apply Nat.ltb_lt in Hl. rewrite Hl in E. discriminate.
Qed.

Lemma in_availabilityStage ts rs r :
  In r (availabilityStage ts rs) <->
  In r rs /\ (ts <> [] -> exists t, In t (SearchResult.overlapAvailability r) /\ In t ts).
Proof.
  unfold availabilityStage. destruct ts as [|t0 ts].
  - simpl. split; [intro H; split; [exact H|congruence]|tauto].
  - replace (0 <? List.length (t0 :: ts)) with true by reflexivity.
    rewrite filter_In, existsb_exists. split.
    + intros [H1 (t & Ht & Hi)]. split; [exact H1|]. intros _. exists t.
      split; [exact Ht|]. apply includes_In in Hi. exact Hi.
    + intros [H1 H2]. split; [exact H1|]. destruct (H2 ltac:(discriminate)) as (t & Ht & Hi).
      exists t. split; [exact Ht|]. apply includes_In. exact Hi.
Qed.

(** A search result is exactly a user other than the current one (by
    username) that has the chosen course (when one is given), whose major
    matches the trimmed filter case-insensitively (when a non-blank one is
    given) and whose overlap with the current user's availability meets the
    selected times (when some are selected); the result carries its id,
    username, name, major, shared courses and overlapping availability. *)
Theorem search_spec (currentUser : User.t) (users : list User.t)
    (course majorFilter : jsval) (availabilityFilter : formval) (r : SearchResult.t) :
  In r (search currentUser users course majorFilter availabilityFilter) <->
  exists u, In u users /\ User.username u <> User.username currentUser /\
    (truthy course = true -> In course (User.courses u)) /\
    (forall m, majorFilter = JStr m -> 0 < String.length (trim m) ->
       toLowerCase (User.major u) = toLowerCase (trim m)) /\
    (selectedTimesOf availabilityFilter <> [] ->
       exists t, In t (overlappingAvailability currentUser u) /\
                 In t (selectedTimesOf availabilityFilter)) /\
    r = SearchResult.mk (User.id u) (User.username u) (User.name u) (User.major u)
          (mutualCourses currentUser u) (overlappingAvailability currentUser u).
Proof.
  unfold search. cbv zeta.
  rewrite in_availabilityStage, in_majorStage, in_map_iff.
  assert (Hpool : forall u,
    In u (if truthy course
          then filter (fun u => includes (User.courses u) course)
                 (filter (fun u => negb (String.eqb (User.username u) (User.username currentUser))) users)
          else filter (fun u => negb (String.eqb (User.username u) (User.username currentUser))) users)
    <-> In u users /\ User.username u <> User.username currentUser /\
        (truthy course = true -> In course (User.courses u))).
  { intro u. destruct (truthy course); rewrite ?filter_In, negb_true_iff, String.eqb_neq.
    - rewrite includes_In. intuition.
    - intuition discriminate. }
  split.
  - intros [[(u & <- & Hu) Hm] Ha]. apply Hpool in Hu as (H1 & H2 & H3).
    exists u. repeat split; auto.
  - intros (u & H1 & H2 & H3 & Hm & Ha & ->).
    split; [split|]; auto.
    exists u. split; [reflexivity|]. apply Hpool. auto.
Qed.

(** ** Dashboard and sessions views after a lifecycle call *)

Lemma accept_ok sess rid s s' :
  accept sess rid s = (Ok, s') ->
  exists user r, getCurrentUser s sess = Some user /\ find_request s rid = Some r /\
    SessionRequest.toUserId r = User.id user /\ SessionRequest.status r = pending /\
    s' = set_found_status s rid accepted.
Proof.
  unfold accept. intro H. split_matches H; inversion H; subst.
  do 2 eexists. split; [reflexivity|split; [reflexivity|]].
  match goal with Ht : negb (Nat.eqb _ _) = false, Hs : negb (status_eqb _ _) = false |- _ =>
    apply negb_false_iff, Nat.eqb_eq in Ht; apply negb_status_false in Hs end.
  auto.
Qed.

Lemma cancel_ok sess rid s s' :
  cancel sess rid s = (Ok, s') ->
  exists user r, getCurrentUser s sess = Some user /\ find_request s rid = Some r /\
    involves user r = true /\ SessionRequest.status r = accepted /\
    s' = set_found_status s rid cancelled.
Proof.
  unfold cancel. cbv zeta. intro H. split_matches H; inversion H; subst.
  do 2 eexists. split; [reflexivity|split; [reflexivity|]].
  match goal with Ht : negb (_ || _) = false, Hs : negb (status_eqb _ _) = false |- _ =>
    apply negb_false_iff in Ht; apply negb_status_false in Hs end.
  auto.
Qed.

Lemma wf_request_by_id s n r'' r0 :
  store_wf s -> find_request s (Some n) = Some r'' ->
  In r0 (sessionRequests s) -> SessionRequest.id r0 = n -> r0 = r''.
Proof.
  intros Hwf Hf Hr0 Hid. unfold find_request in Hf. apply find_some in Hf as [Hr Hp].
  simpl in Hp. apply Nat.eqb_eq in Hp.
  apply (NoDup_map_inj SessionRequest.id (sessionRequests s)); try assumption.
  - apply (wf_request_ids s Hwf).
  - congruence.
Qed.

(** After a successful request, it is pending in the recipient's incoming
    list and in the sender's outgoing list, and among the pending sessions of
    both. *)
Theorem sendRequest_views (sess : string) (rid : option nat) (course timeSlot : jsval)
    (now : string) (s s' : Store)
    (H : sendRequest sess rid course timeSlot now s = (Ok, s')) :
  exists fromUser toUser r,
    getCurrentUser s sess = Some fromUser /\ findUserById s rid = Some toUser /\
    SessionRequest.id r = nextRequestId s /\ SessionRequest.status r = pending /\
    In r (incomingRequests (dashboardView toUser s')) /\
    In r (outgoingRequests (dashboardView fromUser s')) /\
    In r (pendingSessions (sessionsView fromUser s')) /\
    In r (pendingSessions (sessionsView toUser s')).
Proof.
  unfold sendRequest in H. cbv zeta in H. split_matches H; inversion H; subst.
  eexists _, _, (SessionRequest.mk (nextRequestId s) _ _ course timeSlot pending now).
  split; [reflexivity|split; [reflexivity|split; [reflexivity|split; [reflexivity|]]]].
  unfold dashboardView, sessionsView, involves. simpl.
  rewrite !filter_In, !in_app_iff. simpl.
  rewrite !Nat.eqb_refl, !orb_true_r. simpl. intuition.
Qed.

(** In a reachable store, after a successful accept of request [n], the
    accepted request is an upcoming session on the dashboard of the
    recipient and of every user with the sender's id, and no request with id
    [n] is left in anyone's incoming (pending) list. *)
Theorem accept_views (sess : string) (n : nat) (s s' : Store) (Hs : reachable s)
    (H : accept sess (Some n) s = (Ok, s')) :
  exists user r, getCurrentUser s sess = Some user /\ find_request s (Some n) = Some r /\
    In (SessionRequest.set_status accepted r) (upcomingSessions (dashboardView user s')) /\
    (forall u, User.id u = SessionRequest.fromUserId r ->
       In (SessionRequest.set_status accepted r) (upcomingSessions (dashboardView u s'))) /\
    (forall u r0, In r0 (incomingRequests (dashboardView u s')) -> SessionRequest.id r0 <> n).
Proof.
  pose proof (step_wf s s' (step_accept _ _ _ _ _ H) (reachable_wf s Hs)) as Hwf'.
  destruct (accept_ok _ _ _ _ H) as (user & r & Hu & Hf & Hto & Hst & ->).
  pose proof (find_request_set_found s (Some n) accepted r Hf) as Hf'.
  assert (Hin : In (SessionRequest.set_status accepted r)
                   (sessionRequests (set_found_status s (Some n) accepted))).
  { unfold find_request in Hf'. apply find_some in Hf'. apply Hf'. }
  exists user, r. split; [exact Hu|split; [exact Hf|split; [|split]]].
  - unfold dashboardView, involves. simpl upcomingSessions. apply filter_In.
    split; [exact Hin|]. destruct r; simpl in *. rewrite Hto, Nat.eqb_refl, orb_true_r. reflexivity.
  - intros u Hid. unfold dashboardView, involves. simpl upcomingSessions. apply filter_In.
    split; [exact Hin|]. destruct r; simpl in *. rewrite Hid, Nat.eqb_refl. reflexivity.
  - intros u r0 Hr0 Hid. unfold dashboardView in Hr0. simpl incomingRequests in Hr0.
    apply filter_In in Hr0 as [Hr0 Hp].
    rewrite (wf_request_by_id _ n _ r0 Hwf' Hf' Hr0 Hid) in Hp.
    destruct r; simpl in Hp. rewrite andb_false_r in Hp. discriminate.
Qed.

(** In a reachable store, after a successful cancel of session [n], no
    request with id [n] is left among anyone's upcoming sessions (dashboard)
    or confirmed sessions (sessions page). *)
Theorem cancel_views (sess : string) (n : nat) (s s' : Store) (Hs : reachable s)
    (H : cancel sess (Some n) s = (Ok, s')) :
  forall u r0,
    In r0 (upcomingSessions (dashboardView u s')) \/
    In r0 (confirmedSessions (sessionsView u s')) ->
    SessionRequest.id r0 <> n.
Proof.
  pose proof (step_wf s s' (step_cancel _ _ _ _ _ H) (reachable_wf s Hs)) as Hwf'.
  destruct (cancel_ok _ _ _ _ H) as (user & r & Hu & Hf & _ & _ & ->).
  pose proof (find_request_set_found s (Some n) cancelled r Hf) as Hf'.
  intros u r0 Hr0 Hid.
  assert (Hp : In r0 (sessionRequests (set_found_status s (Some n) cancelled)) /\
               (involves u r0 && status_eqb (SessionRequest.status r0) accepted) = true).
  { destruct Hr0 as [Hr0|Hr0]; apply filter_In in Hr0; exact Hr0. }
  destruct Hp as [Hr0' Hp].
  rewrite (wf_request_by_id _ n _ r0 Hwf' Hf' Hr0' Hid) in Hp.
  destruct r; simpl in Hp. rewrite andb_false_r in Hp. discriminate.
Qed.

Lemma decline_ok sess rid s s' :
  decline sess rid s = (Ok, s') ->
  exists user r, getCurrentUser s sess = Some user /\ find_request s rid = Some r /\
    SessionRequest.toUserId r = User.id user /\ SessionRequest.status r = pending /\
    s' = set_found_status s rid declined.
Proof.
  unfold decline. intro H. split_matches H; inversion H; subst.
  do 2 eexists. split; [reflexivity|split; [reflexivity|]].
  match goal with Ht : negb (Nat.eqb _ _) = false, Hs : negb (status_eqb _ _) = false |- _ =>
    apply negb_false_iff, Nat.eqb_eq in Ht; apply negb_status_false in Hs end.
  auto.
Qed.

(** In a reachable store, after a successful decline of request [n], the
    declined record stays in the outgoing list of every user with the
    sender's id, and no request with id [n] is left in anyone's incoming
    list, upcoming sessions, confirmed sessions or pending sessions. *)
Theorem decline_views (sess : string) (n : nat) (s s' : Store) (Hs : reachable s)
    (H : decline sess (Some n) s = (Ok, s')) :
  exists r, find_request s (Some n) = Some r /\
    (forall u, User.id u = SessionRequest.fromUserId r ->
       In (SessionRequest.set_status declined r) (outgoingRequests (dashboardView u s'))) /\
    (forall u r0,
       In r0 (incomingRequests (dashboardView u s')) \/
       In r0 (upcomingSessions (dashboardView u s')) \/
       In r0 (confirmedSessions (sessionsView u s')) \/
       In r0 (pendingSessions (sessionsView u s')) ->
       SessionRequest.id r0 <> n).
Proof.
  pose proof (step_wf s s' (step_decline _ _ _ _ _ H) (reachable_wf s Hs)) as Hwf'.
  destruct (decline_ok _ _ _ _ H) as (user & r & _ & Hf & _ & _ & ->).
  pose proof (find_request_set_found s (Some n) declined r Hf) as Hf'.
  exists r. split; [exact Hf|split].
  - intros u Hid. unfold dashboardView. simpl outgoingRequests. apply filter_In. split.
    + unfold find_request in Hf'. apply find_some in Hf'. apply Hf'.
    + destruct r; simpl in *. rewrite Hid, Nat.eqb_refl. reflexivity.
  - intros u r0 Hr0 Hid.
    assert (Hp : In r0 (sessionRequests (set_found_status s (Some n) declined)) /\
                 status_eqb (SessionRequest.status r0) declined = false).
    { unfold dashboardView, sessionsView in Hr0; simpl in Hr0.
      destruct Hr0 as [Hr0|[Hr0|[Hr0|Hr0]]]; apply filter_In in Hr0 as [Hr0 Hp];
        split; try exact Hr0;
        apply andb_true_iff in Hp as [_ Hp];
        destruct (SessionRequest.status r0); simpl in Hp |- *; congruence. }
    destruct Hp as [Hr0' Hp].
    rewrite (wf_request_by_id _ n _ r0 Hwf' Hf' Hr0' Hid) in Hp.
    destruct r; simpl in Hp. discriminate.
Qed.

(** ** The further properties at the sample data *)

Lemma requestedStore_reachable : reachable requestedStore.
Proof.
  unfold reachable, requestedStore, availStore, coursesStore, registered.
  eapply steps_snoc; [|eapply step_sendRequest; apply surjective_pairing].
  eapply steps_snoc; [|eapply step_availability; apply surjective_pairing].
  eapply steps_snoc; [|eapply step_availability; apply surjective_pairing].
  eapply steps_snoc; [|eapply step_coursesAdd; apply surjective_pairing].
  eapply steps_snoc; [|eapply step_coursesAdd; apply surjective_pairing].
  eapply steps_snoc; [|eapply step_coursesAdd; apply surjective_pairing].
  eapply steps_snoc; [|eapply step_coursesAdd; apply surjective_pairing].
  eapply steps_snoc; [|eapply step_register; apply surjective_pairing].
  eapply steps_snoc; [|eapply step_register; apply surjective_pairing].
  apply steps_refl.
Qed.

Lemma acceptedStore_reachable : reachable acceptedStore.
Proof.
  eapply steps_snoc; [exact requestedStore_reachable|].
  eapply step_accept. apply surjective_pairing.
Qed.

Lemma reachable_usernames_witness :
  reachable requestedStore /\
  NoDup (map User.username (users requestedStore)) /\
  (forall u, In u (users requestedStore) ->
     ends_with "@clemson.edu" (User.username u) = true) /\
  (forall u, In u (users requestedStore) ->
     getCurrentUser requestedStore (User.username u) = Some u).
Proof.
  split; [exact requestedStore_reachable|].
  exact (reachable_usernames requestedStore requestedStore_reachable).
Defined.

Lemma reachable_user_ids_witness :
  reachable requestedStore /\
  NoDup (map User.id (users requestedStore)) /\
  (forall u, In u (users requestedStore) -> User.id u < nextUserId requestedStore).
Proof.
  split; [exact requestedStore_reachable|].
  exact (reachable_user_ids requestedStore requestedStore_reachable).
Defined.

Lemma reachable_request_ids_witness :
  reachable requestedStore /\
  map SessionRequest.id (sessionRequests requestedStore) = [1] /\
  NoDup (map SessionRequest.id (sessionRequests requestedStore)) /\
  (forall r, In r (sessionRequests requestedStore) ->
     SessionRequest.id r < nextRequestId requestedStore) /\
  (forall r, In r (sessionRequests requestedStore) ->
     find_request requestedStore (Some (SessionRequest.id r)) = Some r).
Proof.
  split; [exact requestedStore_reachable|split; [vm_compute; reflexivity|]].
  exact (reachable_request_ids requestedStore requestedStore_reachable).
Defined.

Lemma reachable_request_parties_witness :
  reachable requestedStore /\
  map (fun r => (SessionRequest.fromUserId r, SessionRequest.toUserId r))
      (sessionRequests requestedStore) = [(2, 1)] /\
  (forall r, In r (sessionRequests requestedStore) ->
    SessionRequest.fromUserId r <> SessionRequest.toUserId r /\
    In (SessionRequest.fromUserId r) (map User.id (users requestedStore)) /\
    In (SessionRequest.toUserId r) (map User.id (users requestedStore))).
Proof.
  split; [exact requestedStore_reachable|split; [vm_compute; reflexivity|]].
  exact (reachable_request_parties requestedStore requestedStore_reachable).
Defined.


Lemma register_then_login_witness :
  (forall p h, bcryptStub p = Some h -> bcryptCompareStub (JStr p) h = Some true) /\
  register bcryptStub (JStr "a@clemson.edu") (JStr "password123") (JStr "password123")
    (JStr "Ann") (JStr "Lee") (JStr "CS") emptyStore = (Ok, registeredA) /\
  exists u, In u (users registeredA) /\ JStr (User.username u) = JStr "a@clemson.edu" /\
    User.id u = nextUserId emptyStore /\
    login bcryptCompareStub (JStr "a@clemson.edu") (JStr "password123") registeredA = LoggedIn u /\
    (forall wrong, bcryptCompareStub wrong (User.password u) = Some false ->
       login bcryptCompareStub (JStr "a@clemson.edu") wrong registeredA = InvalidCredentials).
Proof.
  assert (Hc : forall p h, bcryptStub p = Some h -> bcryptCompareStub (JStr p) h = Some true).
  { intros p h Hh. unfold bcryptStub in Hh. inversion Hh; subst h. simpl.
    rewrite String.eqb_refl. reflexivity. }
  assert (H : register bcryptStub (JStr "a@clemson.edu") (JStr "password123") (JStr "password123")
    (JStr "Ann") (JStr "Lee") (JStr "CS") emptyStore = (Ok, registeredA))
    by (vm_compute; reflexivity).
  split; [exact Hc|split; [exact H|]].
  exact (register_then_login bcryptStub bcryptCompareStub Hc _ _ _ _ _ _ emptyStore registeredA H).
Defined.

Lemma coursesAdd_then_remove_witness :
  getCurrentUser registered "a@clemson.edu" = Some (nth 0 (users registered) userA) /\
  ~ In MATH1 (User.courses (nth 0 (users registered) userA)) /\
  snd (coursesRemove "a@clemson.edu" MATH1 (snd (coursesAdd "a@clemson.edu" MATH1 registered)))
  = registered.
Proof.
  assert (Hx : getCurrentUser registered "a@clemson.edu" = Some (nth 0 (users registered) userA))
    by (vm_compute; reflexivity).
  assert (Hc : ~ In MATH1 (User.courses (nth 0 (users registered) userA)))
    by (vm_compute; intros []).
  split; [exact Hx|split; [exact Hc|]].
  exact (coursesAdd_then_remove "a@clemson.edu" MATH1 registered _ Hx Hc).
Defined.

Lemma sendRequest_views_witness :
  sendRequest "b@clemson.edu" (Some 1) MATH1 T1 now0 availStore = (Ok, requestedStore) /\
  exists fromUser toUser r,
    getCurrentUser availStore "b@clemson.edu" = Some fromUser /\
    findUserById availStore (Some 1) = Some toUser /\
    SessionRequest.id r = nextRequestId availStore /\ SessionRequest.status r = pending /\
    In r (incomingRequests (dashboardView toUser requestedStore)) /\
    In r (outgoingRequests (dashboardView fromUser requestedStore)) /\
    In r (pendingSessions (sessionsView fromUser requestedStore)) /\
    In r (pendingSessions (sessionsView toUser requestedStore)).
Proof.
  assert (H : sendRequest "b@clemson.edu" (Some 1) MATH1 T1 now0 availStore = (Ok, requestedStore))
    by (vm_compute; reflexivity).
  split; [exact H|].
  exact (sendRequest_views "b@clemson.edu" (Some 1) MATH1 T1 now0 availStore requestedStore H).
Defined.

Lemma accept_views_witness :
  reachable requestedStore /\
  accept "a@clemson.edu" (Some 1) requestedStore = (Ok, acceptedStore) /\
  exists user r, getCurrentUser requestedStore "a@clemson.edu" = Some user /\
    find_request requestedStore (Some 1) = Some r /\
    In (SessionRequest.set_status accepted r) (upcomingSessions (dashboardView user acceptedStore)) /\
    (forall u, User.id u = SessionRequest.fromUserId r ->
       In (SessionRequest.set_status accepted r) (upcomingSessions (dashboardView u acceptedStore))) /\
    (forall u r0, In r0 (incomingRequests (dashboardView u acceptedStore)) ->
       SessionRequest.id r0 <> 1).
Proof.
  assert (H : accept "a@clemson.edu" (Some 1) requestedStore = (Ok, acceptedStore))
    by (vm_compute; reflexivity).
  split; [exact requestedStore_reachable|split; [exact H|]].
  exact (accept_views "a@clemson.edu" 1 requestedStore acceptedStore requestedStore_reachable H).
Defined.

Lemma cancel_views_witness :
  reachable acceptedStore /\
  cancel "a@clemson.edu" (Some 1) acceptedStore = (Ok, cancelledStore) /\
  (forall u r0,
    In r0 (upcomingSessions (dashboardView u cancelledStore)) \/
    In r0 (confirmedSessions (sessionsView u cancelledStore)) ->
    SessionRequest.id r0 <> 1).
Proof.
  assert (H : cancel "a@clemson.edu" (Some 1) acceptedStore = (Ok, cancelledStore))
    by (vm_compute; reflexivity).
  split; [exact acceptedStore_reachable|split; [exact H|]].
  exact (cancel_views "a@clemson.edu" 1 acceptedStore cancelledStore acceptedStore_reachable H).
Defined.


Lemma decline_views_witness :
  reachable requestedStore /\
  decline "a@clemson.edu" (Some 1) requestedStore
  = (Ok, snd (decline "a@clemson.edu" (Some 1) requestedStore)) /\
  exists r, find_request requestedStore (Some 1) = Some r /\
    (forall u, User.id u = SessionRequest.fromUserId r ->
       In (SessionRequest.set_status declined r)
          (outgoingRequests (dashboardView u (snd (decline "a@clemson.edu" (Some 1) requestedStore))))) /\
    (forall u r0,
       In r0 (incomingRequests (dashboardView u (snd (decline "a@clemson.edu" (Some 1) requestedStore)))) \/
       In r0 (upcomingSessions (dashboardView u (snd (decline "a@clemson.edu" (Some 1) requestedStore)))) \/
       In r0 (confirmedSessions (sessionsView u (snd (decline "a@clemson.edu" (Some 1) requestedStore)))) \/
       In r0 (pendingSessions (sessionsView u (snd (decline "a@clemson.edu" (Some 1) requestedStore)))) ->
       SessionRequest.id r0 <> 1).
Proof.
  assert (H : decline "a@clemson.edu" (Some 1) requestedStore
              = (Ok, snd (decline "a@clemson.edu" (Some 1) requestedStore)))
    by (vm_compute; reflexivity).
  split; [exact requestedStore_reachable|split; [exact H|]].
  exact (decline_views "a@clemson.edu" 1 requestedStore _ requestedStore_reachable H).
Defined.
